(** * MP4-md: link resolution and download pipeline

    A shallow embedding of the decision logic of the repository's
    link classifier, candidate selector, direct downloader, bilibili
    resolver and workflow controller, followed by the properties proved
    about them.

    Python [str] values that the code inspects character by character
    (input text, URLs, quality labels) are lists of Unicode code points;
    messages that are only built and passed on are [string]s holding the
    UTF-8 bytes of the source literal. *)

From Stdlib Require Import ZArith NArith List String Ascii Bool Lia Permutation.
From Stdlib Require Import DecimalString.
From stdpp Require Import base strings gmap.
Import ListNotations.

Open Scope string_scope.

(** ** Python strings as code points *)

Module PyStr.

Definition pystr := list N.

(** The code points of an ASCII literal. *)
Fixpoint u (s : string) : pystr :=
  match s with
  | EmptyString => []
  | String c s' => N_of_ascii c :: u s'
  end.

Fixpoint eqb (a b : pystr) : bool :=
  match a, b with
  | [], [] => true
  | x :: a', y :: b' => N.eqb x y && eqb a' b'
  | _, _ => false
  end.

Fixpoint starts_with (p s : pystr) : bool :=
  match p, s with
  | [], _ => true
  | x :: p', y :: s' => N.eqb x y && starts_with p' s'
  | _ :: _, [] => false
  end.

(** [needle in hay] *)
Fixpoint contains (needle hay : pystr) : bool :=
  starts_with needle hay ||
  match hay with
  | [] => false
  | _ :: hay' => contains needle hay'
  end.

(** [str.lower()] on the ASCII range.  Python also maps non-ASCII cased
    letters.  Those mappings produce no digit, and the only ASCII letters
    they produce are [k] (from the Kelvin sign) and [i] followed by a
    combining dot (from the dotted capital I); neither completes one of
    the texts the code below looks for, so the tests on the result agree. *)
Definition lower_char (c : N) : N :=
  if (65 <=? c)%N && (c <=? 90)%N then (c + 32)%N else c.

Definition lower (s : pystr) : pystr := map lower_char s.

End PyStr.

(** ** The fragment of Python's [re] used by the repository *)

Module Regex.
Import PyStr.

Inductive regex :=
| Empty
| Char (c : N)
| Class (p : N -> bool)
| Seq (r1 r2 : regex)
| Alt (r1 r2 : regex)
| Star (r : regex)
| Group (i : nat) (r : regex)
| Eos.

(** Derived forms: a literal, [r?], [r+], [a|b|...]. *)
Fixpoint lit_points (s : pystr) : regex :=
  match s with
  | [] => Empty
  | c :: s' => Seq (Char c) (lit_points s')
  end.
Definition lit (s : string) : regex := lit_points (u s).
Definition opt (r : regex) : regex := Alt r Empty.
Definition plus (r : regex) : regex := Seq r (Star r).
Fixpoint alts (rs : list regex) : regex :=
  match rs with
  | [] => Class (fun _ => false)
  | [r] => r
  | r :: rs' => Alt r (alts rs')
  end.

(** [.] without DOTALL: anything but a line feed. *)
Definition dot : regex := Class (fun c => negb (c =? 10)%N).

(** [\s] on [str] patterns: the characters for which Python's
    [str.isspace] holds. *)
Definition is_space (c : N) : bool :=
  ((9 <=? c) && (c <=? 13) || (28 <=? c) && (c <=? 32) || (c =? 133)
   || (c =? 160) || (c =? 5760) || (8192 <=? c) && (c <=? 8202)
   || (c =? 8232) || (c =? 8233) || (c =? 8239) || (c =? 8287)
   || (c =? 12288))%N.

Fixpoint ngroups (r : regex) : nat :=
  match r with
  | Seq a b | Alt a b => (ngroups a + ngroups b)%nat
  | Star a => ngroups a
  | Group _ a => S (ngroups a)
  | _ => 0%nat
  end.

(** Captured groups: the text last matched by each numbered group. *)
Definition captures := list (nat * pystr).

Fixpoint get_cap (i : nat) (c : captures) : option pystr :=
  match c with
  | [] => None
  | (j, s) :: c' => if Nat.eqb i j then Some s else get_cap i c'
  end.

Definition set_cap (i : nat) (s : pystr) (c : captures) : captures :=
  (i, s) :: c.

(** The backtracking matcher, in continuation-passing style: alternatives
    are tried left to right and [*] is greedy, as in [re].  An iteration
    of [*] has to consume input. *)
Section Matcher.
Context {A : Type}.

Definition cont := pystr -> captures -> option A.

Fixpoint star_loop (body : pystr -> captures -> cont -> option A)
    (fuel : nat) (s : pystr) (c : captures) (k : cont) : option A :=
  match fuel with
  | O => k s c
  | S fuel' =>
      match body s c (fun s' c' =>
               if (length s' <? length s)%nat
               then star_loop body fuel' s' c' k else None) with
      | Some a => Some a
      | None => k s c
      end
  end.

Fixpoint run (r : regex) (s : pystr) (c : captures) (k : cont)
    : option A :=
  match r with
  | Empty => k s c
  | Char x =>
      match s with
      | y :: s' => if (x =? y)%N then k s' c else None
      | [] => None
      end
  | Class p =>
      match s with
      | y :: s' => if p y then k s' c else None
      | [] => None
      end
  | Seq r1 r2 => run r1 s c (fun s' c' => run r2 s' c' k)
  | Alt r1 r2 =>
      match run r1 s c k with
      | Some a => Some a
      | None => run r2 s c k
      end
  | Star r' => star_loop (run r') (length s) s c k
  | Group i r' =>
      run r' s c (fun s' c' =>
        k s' (set_cap i (firstn (length s - length s') s) c'))
  | Eos =>
      match s with
      | [] => k s c
      | [10%N] => k s c
      | _ => None
      end
  end.
End Matcher.

(** [re.match(pattern, s)]: the unconsumed rest and the groups. *)
Definition re_match (r : regex) (s : pystr) : option (pystr * captures) :=
  run r s [] (fun s' c' => Some (s', c')).

(** The text a match starting at [s] and ending at [rest] covers. *)
Definition matched (s rest : pystr) : pystr :=
  firstn (length s - length rest) s.

(** [re.findall(pattern, s)] for a pattern without groups: the
    non-overlapping matches, scanning from the left. *)
Fixpoint findall_loop (fuel : nat) (r : regex) (s : pystr) : list pystr :=
  match fuel with
  | O => []
  | S fuel' =>
      match re_match r s with
      | Some (rest, _) =>
          matched s rest ::
            (if (length rest <? length s)%nat
             then findall_loop fuel' r rest
             else match s with
                  | [] => []
                  | _ :: t => findall_loop fuel' r t
                  end)
      | None =>
          match s with
          | [] => []
          | _ :: t => findall_loop fuel' r t
          end
      end
  end.

Definition re_findall (r : regex) (s : pystr) : list pystr :=
  findall_loop (S (length s)) r s.

(** What a pattern matches, as a relation between the input and the rest
    left after the match. *)
Inductive Matches : regex -> pystr -> pystr -> Prop :=
| MEmpty s : Matches Empty s s
| MChar x s : Matches (Char x) (x :: s) s
| MClass (p : N -> bool) x s : p x = true -> Matches (Class p) (x :: s) s
| MSeq r1 r2 s s1 s2 :
    Matches r1 s s1 -> Matches r2 s1 s2 -> Matches (Seq r1 r2) s s2
| MAltL r1 r2 s s' : Matches r1 s s' -> Matches (Alt r1 r2) s s'
| MAltR r1 r2 s s' : Matches r2 s s' -> Matches (Alt r1 r2) s s'
| MStarNil r s : Matches (Star r) s s
| MStarCons r s s1 s2 :
    Matches r s s1 -> (length s1 < length s)%nat ->
    Matches (Star r) s1 s2 -> Matches (Star r) s s2
| MGroup i r s s' : Matches r s s' -> Matches (Group i r) s s'
| MEosEnd : Matches Eos [] []
| MEosNl : Matches Eos [10%N] [10%N].

End Regex.

(** ** Link classifier (modules/link_classifier/link_classifier.py) *)

Module LinkClassifier.
Import PyStr Regex.

Section Classifier.

(** [\d] on [str] patterns matches the decimal digits of every script
    (Unicode category Nd); the table belongs to the interpreter. *)
Variable unicode_decimal : N -> bool.

Definition in_range (lo hi : string) (c : N) : bool :=
  match u lo, u hi with
  | [a], [b] => ((a <=? c) && (c <=? b))%N
  | _, _ => false
  end.

(** [[A-Za-z0-9]] *)
Definition alnum (c : N) : bool :=
  in_range "A" "Z" c || in_range "a" "z" c || in_range "0" "9" c.

(** [[A-Za-z0-9_-]] *)
Definition alnum_dash (c : N) : bool :=
  alnum c || (c =? 95)%N || (c =? 45)%N.

(** [https?://] *)
Definition scheme : regex :=
  Seq (lit "http") (Seq (opt (Char 115)) (lit "://")).

(** [(?:www\.)?] *)
Definition www : regex := opt (lit "www.").

(** [[^/]*] *)
Definition host_part : regex := Star (Class (fun c => negb (c =? 47)%N)).

(** [(\?.* )?$] with the group numbered [i]; the patterns are quoted
    with a blank before the closing parenthesis of this group. *)
Definition query_end (i : nat) : regex :=
  Seq (opt (Group i (Seq (Char 63) (Star dot)))) Eos.

Definition video_ext : list string :=
  ["mp4"; "avi"; "mov"; "mkv"; "wmv"; "flv"; "webm"; "m4v"].
Definition audio_ext : list string :=
  ["mp3"; "wav"; "m4a"; "aac"; "flac"; "ogg"].
Definition exts (l : list string) : regex := alts (map lit l).

(** [self.link_patterns], in the insertion order of the dict. *)
Definition link_patterns : list (string * list regex) :=
  [ ("bilibili",
      [ (* https?://(?:www\.)?bilibili\.com/video/([A-Za-z0-9]+) *)
        Seq scheme (Seq www (Seq (lit "bilibili.com/video/")
          (Group 1 (plus (Class alnum)))));
        (* https?://b23\.tv/([A-Za-z0-9]+) *)
        Seq scheme (Seq (lit "b23.tv/") (Group 1 (plus (Class alnum))));
        (* https?://(?:www\.)?bilibili\.com/bangumi/play/([A-Za-z0-9]+) *)
        Seq scheme (Seq www (Seq (lit "bilibili.com/bangumi/play/")
          (Group 1 (plus (Class alnum)))));
        (* https?://(?:www\.)?bilibili\.com/medialist/play/([A-Za-z0-9]+) *)
        Seq scheme (Seq www (Seq (lit "bilibili.com/medialist/play/")
          (Group 1 (plus (Class alnum)))));
        (* https?://(?:www\.)?bilibili\.com/cheese/play/([A-Za-z0-9]+) *)
        Seq scheme (Seq www (Seq (lit "bilibili.com/cheese/play/")
          (Group 1 (plus (Class alnum))))) ]);
    ("youtube",
      [ (* https?://(?:www\.)?youtube\.com/watch\?v=([A-Za-z0-9_-]+) *)
        Seq scheme (Seq www (Seq (lit "youtube.com/watch?v=")
          (Group 1 (plus (Class alnum_dash)))));
        (* https?://youtu\.be/([A-Za-z0-9_-]+) *)
        Seq scheme (Seq (lit "youtu.be/")
          (Group 1 (plus (Class alnum_dash))));
        (* https?://(?:www\.)?youtube\.com/embed/([A-Za-z0-9_-]+) *)
        Seq scheme (Seq www (Seq (lit "youtube.com/embed/")
          (Group 1 (plus (Class alnum_dash))))) ]);
    ("vimeo",
      [ (* https?://(?:www\.)?vimeo\.com/(\d+) *)
        Seq scheme (Seq www (Seq (lit "vimeo.com/")
          (Group 1 (plus (Class unicode_decimal)))));
        (* https?://player\.vimeo\.com/video/(\d+) *)
        Seq scheme (Seq (lit "player.vimeo.com/video/")
          (Group 1 (plus (Class unicode_decimal)))) ]);
    ("douyin",
      [ (* https?://(?:www\.)?douyin\.com/video/([A-Za-z0-9]+) *)
        Seq scheme (Seq www (Seq (lit "douyin.com/video/")
          (Group 1 (plus (Class alnum)))));
        (* https?://v\.douyin\.com/([A-Za-z0-9]+) *)
        Seq scheme (Seq (lit "v.douyin.com/")
          (Group 1 (plus (Class alnum)))) ]);
    ("kuaishou",
      [ (* https?://(?:www\.)?kuaishou\.com/short-video/([A-Za-z0-9]+) *)
        Seq scheme (Seq www (Seq (lit "kuaishou.com/short-video/")
          (Group 1 (plus (Class alnum)))));
        (* https?://v\.kuaishou\.com/([A-Za-z0-9]+) *)
        Seq scheme (Seq (lit "v.kuaishou.com/")
          (Group 1 (plus (Class alnum)))) ]);
    ("direct_video",
      [ (* .*\.(mp4|avi|mov|mkv|wmv|flv|webm|m4v)(\?.* )?$ *)
        Seq (Star dot) (Seq (Char 46) (Seq (Group 1 (exts video_ext))
          (query_end 2)));
        (* https?://[^/]*bilivideo\.com/.*\.(mp4|flv|m4v)(\?.* )?$ *)
        Seq scheme (Seq host_part (Seq (lit "bilivideo.com/")
          (Seq (Star dot) (Seq (Char 46)
            (Seq (Group 1 (exts ["mp4"; "flv"; "m4v"]))
              (query_end 2))))));
        (* https?://[^/]*\.(cdn|media|video|stream)\.com/.*\.(mp4|avi|mov|mkv|wmv|flv|webm|m4v)(\?.* )?$ *)
        Seq scheme (Seq host_part (Seq (Char 46)
          (Seq (Group 1 (exts ["cdn"; "media"; "video"; "stream"]))
            (Seq (lit ".com/") (Seq (Star dot) (Seq (Char 46)
              (Seq (Group 2 (exts video_ext)) (query_end 3))))))));
        (* https?://[^/]*\.(mp4|avi|mov|mkv|wmv|flv|webm|m4v)(\?.* )?$ *)
        Seq scheme (Seq host_part (Seq (Char 46)
          (Seq (Group 1 (exts video_ext)) (query_end 2)))) ]);
    ("direct_audio",
      [ (* .*\.(mp3|wav|m4a|aac|flac|ogg)(\?.* )?$ *)
        Seq (Star dot) (Seq (Char 46) (Seq (Group 1 (exts audio_ext))
          (query_end 2)));
        (* https?://[^/]*\.(mp3|wav|m4a|aac|flac|ogg)(\?.* )?$ *)
        Seq scheme (Seq host_part (Seq (Char 46)
          (Seq (Group 1 (exts audio_ext)) (query_end 2)))) ]) ].

Record classified_link := {
  url : pystr;
  type_ : string;
  platform_id : option pystr;
  parser : string
}.

Record classification := {
  success : bool;
  error : option string;
  links : list classified_link;
  primary_link : option classified_link;
  total_links : option nat
}.

(** The body class of the URL pattern: no whitespace and none of
    less-than, greater-than, double quote, braces, bar, backslash,
    caret, backquote, square brackets. *)
Definition url_body_char (c : N) : bool :=
  negb (is_space c
        || existsb (N.eqb c) [60; 62; 34; 123; 125; 124; 92; 94; 96; 91; 93]%N).

(** [url_pattern]: [https?://] followed by one or more characters of
    the body class. *)
Definition url_pattern : regex :=
  Seq scheme (plus (Class url_body_char)).

Definition _extract_links (text : pystr) : list pystr :=
  re_findall url_pattern text.

(** The inner loop of [_identify_link_type]: the first pattern of a
    group that matches gives the platform id. *)
Fixpoint match_patterns (patterns : list regex) (url0 : pystr)
    : option (option pystr) :=
  match patterns with
  | [] => None
  | pattern :: rest =>
      match re_match pattern url0 with
      | Some (_, groups) =>
          Some (if (0 <? ngroups pattern)%nat then get_cap 1 groups
                else None)
      | None => match_patterns rest url0
      end
  end.

Fixpoint identify_in (table : list (string * list regex)) (url0 : pystr)
    : string * option pystr :=
  match table with
  | [] => ("unknown", None)
  | (link_type, patterns) :: rest =>
      match match_patterns patterns url0 with
      | Some pid => (link_type, pid)
      | None => identify_in rest url0
      end
  end.

Definition _identify_link_type (url0 : pystr) : string * option pystr :=
  identify_in link_patterns url0.

Definition parser_mapping : list (string * string) :=
  [ ("bilibili", "bilibili_parser");
    ("youtube", "youtube_parser");
    ("vimeo", "vimeo_parser");
    ("douyin", "douyin_parser");
    ("kuaishou", "kuaishou_parser");
    ("direct_video", "direct_downloader");
    ("direct_audio", "direct_downloader");
    ("unknown", "generic_parser") ].

Fixpoint dict_get (d : list (string * string)) (key default : string)
    : string :=
  match d with
  | [] => default
  | (k, v) :: d' => if String.eqb k key then v else dict_get d' key default
  end.

Definition _get_parser_name (link_type : string) : string :=
  dict_get parser_mapping link_type "generic_parser".

Definition priority_order : list string :=
  ["direct_video"; "direct_audio"; "bilibili"; "youtube"; "vimeo";
   "douyin"; "kuaishou"; "unknown"].

(** The two nested loops of [_select_primary_link]. *)
Fixpoint first_by_priority (order : list string)
    (classified_links : list classified_link) : option classified_link :=
  match order with
  | [] => None
  | priority_type :: order' =>
      match find (fun link => String.eqb (type_ link) priority_type)
              classified_links with
      | Some link => Some link
      | None => first_by_priority order' classified_links
      end
  end.

Definition _select_primary_link (classified_links : list classified_link)
    : option classified_link :=
  match classified_links with
  | [] => None
  | first :: _ =>
      match first_by_priority priority_order classified_links with
      | Some link => Some link
      | None => Some first
      end
  end.

Definition classify_one (link : pystr) : classified_link :=
  let '(link_type, pid) := _identify_link_type link in
  {| url := link; type_ := link_type; platform_id := pid;
     parser := _get_parser_name link_type |}.

Definition classify_link (input_text : pystr) : classification :=
  let found := _extract_links input_text in
  match found with
  | [] =>
      {| success := false; error := Some "未找到任何链接";
         links := []; primary_link := None; total_links := None |}
  | _ :: _ =>
      let classified_links := map classify_one found in
      {| success := true; error := None;
         links := classified_links;
         primary_link := _select_primary_link classified_links;
         total_links := Some (length found) |}
  end.

End Classifier.

(** The ASCII digits, the part of [\d] every interpreter agrees on. *)
Definition ascii_decimal (c : N) : bool := ((48 <=? c) && (c <=? 57))%N.

End LinkClassifier.

(** ** Candidate selector (modules/preprocessing/video_downloader.py) *)

Module VideoDownloader.
Import PyStr.
Local Open Scope Z_scope.

(** One entry of [download_urls].  The keys read with [.get] may be
    absent, the key ["url"] is read with a subscript. *)
Record url_info := {
  url : pystr;
  quality : option pystr;
  format : option pystr;
  size : option Z
}.

Definition get {A} (field : option A) (default : A) : A :=
  match field with
  | Some v => v
  | None => default
  end.

Definition quality_score (info : url_info) : Z :=
  let quality := lower (get (quality info) (u "unknown")) in
  if contains (u "1080") quality || contains (u "hd") quality then 3
  else if contains (u "720") quality then 2
  else if contains (u "480") quality then 1
  else 0.

Definition format_score (info : url_info) : Z :=
  let format_type := lower (get (format info) (u "unknown")) in
  if existsb (eqb format_type) [u "mp4"; u "webm"] then 2
  else if eqb format_type (u "direct") then 1
  else 0.

(** [size_mb = size / (1024 * 1024)] is compared with 100 and 500; on
    integers the quotient is below a bound exactly when the size is
    below the bound times 1024 * 1024. *)
Definition size_score (info : url_info) : Z :=
  let size := get (size info) 0 in
  if 0 <? size then
    if size <? 100 * (1024 * 1024) then 2
    else if size <? 500 * (1024 * 1024) then 1
    else 0
  else 0.

Definition score (info : url_info) : Z :=
  0 + quality_score info + format_score info + size_score info.

(** The [for url_info in download_urls] loop with its two running
    variables. *)
Fixpoint best_loop (download_urls : list url_info)
    (best_url : pystr) (best_score : Z) : pystr :=
  match download_urls with
  | [] => best_url
  | info :: rest =>
      if best_score <? score info
      then best_loop rest (url info) (score info)
      else best_loop rest best_url best_score
  end.

Definition _select_best_download_url (download_urls : list url_info)
    : pystr :=
  match download_urls with
  | [] => []
  | first :: _ => best_loop download_urls (url first) 0
  end.

Definition MB : Z := 1024 * 1024.

End VideoDownloader.

(** ** Direct downloader
       (modules/preprocessing/downloaders/direct_downloader.py) *)

Module DirectDownloader.
Local Open Scope Z_scope.

(** The exceptions [download_file] tells apart, each with its [str(e)]. *)
Inductive exn :=
| HTTPError (status_code : Z) (text : string)
| Timeout (text : string)
| ConnectionError (text : string)
| OtherError (text : string).

(** The [content-length] header: absent or empty, a number, or text
    that [int] rejects with the given message. *)
Inductive header :=
| HAbsent
| HInt (n : Z)
| HMalformed (text : string).

(** How [iter_content] ends: the body is complete, or reading raises. *)
Inductive stream_end :=
| Complete
| Broken (e : exn).

Record response := {
  content_length : header;
  chunks : list (list Byte.byte);
  ending : stream_end
}.

(** What [requests.get] followed by [raise_for_status] gives. *)
Inductive reply :=
| Raises (e : exn)
| Responds (r : response).

Inductive event :=
| EvRequest (attempt : nat)
| EvSleep (seconds : Z).

(** The result dict; keys that a branch does not set are [None]. *)
Record download_result := {
  success : bool;
  file_path : option string;
  filename : option string;
  size : option Z;
  message : option string;
  error : option string;
  url : option string
}.

Definition succeeded (path name : string) (sz : Z) (msg : string)
    : download_result :=
  {| success := true; file_path := Some path; filename := Some name;
     size := Some sz; message := Some msg; error := None; url := None |}.

Definition failed (err url0 : string) : download_result :=
  {| success := false; file_path := None; filename := None; size := None;
     message := None; error := Some err; url := Some url0 |}.

(** [os.path.join] of two components on a POSIX system. *)
Definition os_path_join (a b : string) : string :=
  if String.prefix "/" b then b
  else if String.eqb a "" then b
  else if String.eqb (String.substring (String.length a - 1) 1 a) "/"
       then a ++ b
       else a ++ "/" ++ b.

Definition Z_to_string (z : Z) : string :=
  NilZero.string_of_int (Z.to_int z).

(** The text before the first occurrence of [sep], [s.split(sep)[0]]. *)
Fixpoint before_first (sep : ascii) (s : string) : string :=
  match s with
  | EmptyString => EmptyString
  | String c s' =>
      if Ascii.eqb c sep then EmptyString
      else String c (before_first sep s')
  end.

(** The text after the last occurrence of [sep], [s.split(sep)[-1]]. *)
Fixpoint after_last (sep : ascii) (s : string) : string :=
  match s with
  | EmptyString => EmptyString
  | String c s' =>
      if existsb (Ascii.eqb sep) (list_ascii_of_string s')
      then after_last sep s'
      else if Ascii.eqb c sep then s' else s
  end.

Definition has_char (c : ascii) (s : string) : bool :=
  existsb (Ascii.eqb c) (list_ascii_of_string s).

Section Downloader.

(** Configuration read in [__init__]. *)
Variable download_dir : string.
Variable max_file_size_mb : Z.
Definition max_file_size : Z := max_file_size_mb * 1024 * 1024.

(** [f"{n / (1024*1024):.2f}"], the interpreter's float formatting. *)
Variable format_mb : Z -> string.

(** The remote end: what the request of each attempt meets. *)
Variable server : nat -> reply.

(** [int(time.time())] *)
Variable now : Z.

Definition max_retries : nat := 3.
Definition retry_delay : Z := 2.

(** The files on disk, by path.  The directory is private to the call:
    [open] and [os.remove] succeed and nothing else touches the files. *)
Abbreviation files := (gmap string (list Byte.byte)).

Definition _extract_filename (url0 : string) : string :=
  let clean_url := before_first "?" url0 in
  let name := after_last "/" clean_url in
  if String.eqb name "" || negb (has_char "." name)
  then "download_" ++ Z_to_string now ++ ".mp4"
  else name.

Inductive step :=
| Return (r : download_result)
| Continue.

Definition get_content (fs : files) (path : string) : list Byte.byte :=
  default [] (fs !! path).

(** The [except] clauses, for an exception raised in attempt
    [attempt]. *)
Definition handle (attempt : nat) (url0 : string) (e : exn)
    : step * list event :=
  match e with
  | HTTPError status_code text =>
      if status_code =? 403 then
        if (attempt <? max_retries - 1)%nat
        then (Continue, [EvSleep retry_delay])
        else (Return (failed
               "访问被拒绝(403)，可能是链接过期或需要特殊请求头" url0), [])
      else if status_code =? 404 then
        (Return (failed "文件不存在(404)，链接可能已失效" url0), [])
      else if status_code =? 429 then
        if (attempt <? max_retries - 1)%nat
        then (Continue, [EvSleep (retry_delay * 2)])
        else (Return (failed "请求过于频繁(429)，请稍后重试" url0), [])
      else (Return (failed ("HTTP错误: " ++ text) url0), [])
  | Timeout text =>
      if (attempt <? max_retries - 1)%nat
      then (Continue, [EvSleep retry_delay])
      else (Return (failed ("下载超时: " ++ text) url0), [])
  | ConnectionError text =>
      if (attempt <? max_retries - 1)%nat
      then (Continue, [EvSleep retry_delay])
      else (Return (failed ("连接错误: " ++ text) url0), [])
  | OtherError text => (Return (failed text url0), [])
  end.

(** The chunk loop inside [with open(file_path, 'wb') as f]: [None]
    when every chunk was written, the failure result when the running
    total went over the limit and the file was removed. *)
Fixpoint write_chunks (file_path0 url0 : string)
    (body : list (list Byte.byte)) (downloaded_size : Z) (fs : files)
    : option download_result * files :=
  match body with
  | [] => (None, fs)
  | chunk :: rest =>
      match chunk with
      | [] => write_chunks file_path0 url0 rest downloaded_size fs
      | _ :: _ =>
          let fs1 := <[file_path0 := (get_content fs file_path0 ++ chunk)%list]> fs in
          let downloaded_size1 := downloaded_size + Z.of_nat (length chunk) in
          if max_file_size <? downloaded_size1
          then (Some (failed
                  ("下载大小超过限制: " ++ format_mb downloaded_size1
                   ++ "MB > " ++ format_mb max_file_size ++ "MB") url0),
                delete file_path0 fs1)
          else write_chunks file_path0 url0 rest downloaded_size1 fs1
      end
  end.

(** From [open] to the end of the [try] body: the file is created
    empty, the chunks are written, and the file is checked. *)
Definition stream (attempt : nat) (url0 name file_path0 : string)
    (r : response) (fs : files) : step * files * list event :=
  let fs0 := <[file_path0 := []]> fs in
  match write_chunks file_path0 url0 (chunks r) 0 fs0 with
  | (Some too_large, fs1) => (Return too_large, fs1, [])
  | (None, fs1) =>
      match ending r with
      | Broken e =>
          let '(st, ev) := handle attempt url0 e in (st, fs1, ev)
      | Complete =>
          match fs1 !! file_path0 with
          | Some content =>
              let actual_size := Z.of_nat (length content) in
              if actual_size =? 0
              then (Return (failed "下载的文件大小为0，可能下载失败" url0),
                    delete file_path0 fs1, [])
              else (Return (succeeded file_path0 name actual_size
                              "下载完成"), fs1, [])
          | None => (Return (failed "文件下载后不存在" url0), fs1, [])
          end
      end
  end.

(** The [try] body once the request has been answered with [r]: the
    size check on the header comes before the file is opened. *)
Definition receive (attempt : nat) (url0 name file_path0 : string)
    (r : response) (fs : files) : step * files * list event :=
  match content_length r with
  | HMalformed text =>
      let '(st, ev) := handle attempt url0 (OtherError text) in
      (st, fs, ev)
  | HInt file_size =>
      if max_file_size <? file_size
      then (Return (failed
              ("文件大小超过限制: " ++ format_mb file_size ++ "MB > "
               ++ format_mb max_file_size ++ "MB") url0), fs, [])
      else stream attempt url0 name file_path0 r fs
  | HAbsent => stream attempt url0 name file_path0 r fs
  end.

(** One iteration of [for attempt in range(max_retries)], with
    [filename] already set. *)
Definition try_once (attempt : nat) (url0 name : string) (fs : files)
    : step * files * list event :=
  let file_path0 := os_path_join download_dir name in
  match fs !! file_path0 with
  | Some content =>
      (Return (succeeded file_path0 name (Z.of_nat (length content))
                 "文件已存在"), fs, [])
  | None =>
      match server attempt with
      | Raises e =>
          let '(st, ev) := handle attempt url0 e in
          (st, fs, EvRequest attempt :: ev)
      | Responds r =>
          let '(st, fs1, ev) := receive attempt url0 name file_path0 r fs in
          (st, fs1, EvRequest attempt :: ev)
      end
  end.

Fixpoint attempts (todo : list nat) (url0 name : string) (fs : files)
    : download_result * files * list event :=
  match todo with
  | [] =>
      (failed ("下载失败，已重试"
               ++ Z_to_string (Z.of_nat max_retries) ++ "次") url0, fs, [])
  | attempt :: todo' =>
      match try_once attempt url0 name fs with
      | (Return r, fs1, ev) => (r, fs1, ev)
      | (Continue, fs1, ev) =>
          let '(r, fs2, ev') := attempts todo' url0 name fs1 in
          (r, fs2, (ev ++ ev')%list)
      end
  end.

(** [if not filename: filename = self._extract_filename(url)]; the
    name is set in the first iteration and kept. *)
Definition resolve_filename (url0 : string) (filename0 : option string)
    : string :=
  match filename0 with
  | Some n => if String.eqb n "" then _extract_filename url0 else n
  | None => _extract_filename url0
  end.

(** [download_file(url, filename)]: the result, the files afterwards
    and the requests and sleeps performed. *)
Definition download_file (url0 : string) (filename0 : option string)
    (fs : files) : download_result * files * list event :=
  attempts (seq 0 max_retries) url0 (resolve_filename url0 filename0) fs.

End Downloader.

End DirectDownloader.

(** ** Bilibili resolver: the remote call
       (modules/preprocessing/parsers/bilibili_parser.py) *)

Module BilibiliParser.
Local Open Scope Z_scope.

(** The decoded JSON body: [code] when it is a number, [msg] when
    present. *)
Record payload := {
  code : option Z;
  msg : option string
}.

(** What [requests.get], [raise_for_status] and [response.json] give:
    a [RequestException], another exception, or a decoded body. *)
Inductive api_reply :=
| RequestException (text : string)
| OtherException (text : string)
| Json (p : payload).

Inductive event :=
| EvRequest (attempt : nat)
| EvSleep (seconds : Z).

Record api_result := {
  success : bool;
  data : option payload;
  error : option string;
  url : option string
}.

Definition succeeded (p : payload) : api_result :=
  {| success := true; data := Some p; error := None; url := None |}.

Definition failed (err url0 : string) : api_result :=
  {| success := false; data := None; error := Some err; url := Some url0 |}.

Inductive step :=
| Return (r : api_result)
| Raise (text : string)
| Continue.

Definition Z_to_string (z : Z) : string :=
  NilZero.string_of_int (Z.to_int z).

Section Api.

(** [BILIBILI_MAX_RETRIES] and [BILIBILI_RETRY_DELAY]. *)
Variable max_retries : Z.
Variable retry_delay : Z.

(** The remote resolution API, per attempt. *)
Variable api : nat -> api_reply.

Definition is_success_code (p : payload) : bool :=
  match code p with
  | Some c => c =? 1
  | None => false
  end.

(** [result.get("msg", ...)] *)
Definition error_msg (p : payload) : string :=
  match msg p with
  | Some m => m
  | None => "未知错误"
  end.

(** [time.sleep] rejects a negative length with a [ValueError]. *)
Definition sleep_error : string := "sleep length must be non-negative".

(** One iteration of the loop of [_call_bilibili_api].  The sleep after
    a failure payload is inside the [try] and its [ValueError] meets
    [except Exception]; the sleep after a [RequestException] is inside
    the handler and its [ValueError] leaves the function. *)
Definition try_once (attempt : nat) (url0 : string) : step * list event :=
  match api attempt with
  | Json p =>
      if is_success_code p then (Return (succeeded p), [EvRequest attempt])
      else if Z.of_nat attempt =? max_retries - 1
      then (Return (failed ("B站API错误: " ++ error_msg p) url0),
            [EvRequest attempt])
      else if retry_delay <? 0
      then (Return (failed sleep_error url0), [EvRequest attempt])
      else (Continue, [EvRequest attempt; EvSleep retry_delay])
  | RequestException text =>
      if Z.of_nat attempt =? max_retries - 1
      then (Return (failed ("B站API请求失败: " ++ text) url0),
            [EvRequest attempt])
      else if retry_delay <? 0
      then (Raise sleep_error, [EvRequest attempt])
      else (Continue, [EvRequest attempt; EvSleep retry_delay])
  | OtherException text =>
      (Return (failed text url0), [EvRequest attempt])
  end.

Fixpoint attempts (todo : list nat) (url0 : string) : step * list event :=
  match todo with
  | [] =>
      (Return (failed ("B站API调用失败，已重试"
                       ++ Z_to_string max_retries ++ "次") url0), [])
  | attempt :: todo' =>
      match try_once attempt url0 with
      | (Continue, ev) =>
          let '(st, ev') := attempts todo' url0 in (st, (ev ++ ev')%list)
      | done => done
      end
  end.

(** [_call_bilibili_api(url)]: the dict returned or the exception
    raised, and the requests and sleeps performed. *)
Definition _call_bilibili_api (url0 : string) : step * list event :=
  attempts (seq 0 (Z.to_nat max_retries)) url0.

Definition requests_made (ev : list event) : list nat :=
  flat_map (fun e => match e with EvRequest a => [a] | EvSleep _ => [] end)
    ev.

End Api.

End BilibiliParser.

(** ** Workflow controller (modules/workflow/workflow_controller.py) *)

Module WorkflowController.
Import PyStr.

(** The dicts returned by the stages, with the keys the controller
    reads; an absent key is [None]. *)
Record download_result := {
  d_success : bool;
  d_error : option string;
  d_file_path : option string;
  d_title : option string;
  d_duration : option string;
  d_size : option string;
  d_platform : option string
}.

Record audio_result := {
  a_success : bool;
  a_error : option string;
  a_audio_path : option string
}.

Record transcription_result := {
  t_success : bool;
  t_error : option string;
  t_transcript : option string;
  t_transcript_with_timestamps : option string
}.

Record text_result := {
  x_success : bool;
  x_error : option string;
  x_formatted_text : option string
}.

Record final_result := {
  success : bool;
  input_text : pystr;
  link_type : string;
  platform_id : option pystr;
  video_path : string;
  audio_path : string;
  transcript : string;
  transcript_with_timestamps : option string;
  formatted_text : string;
  text_processing_success : bool;
  text_processing_error : option string;
  message : string;
  title : string;
  duration : string;
  size : string;
  platform : string;
  url : pystr;
  saved_files : list (string * string)
}.

(** What [process_video_link] returns: the dict of the stage that
    failed, the complete result, or one of its own failure dicts. *)
Inductive output :=
| OfClassification (r : LinkClassifier.classification)
| OfDownload (r : download_result)
| OfAudio (r : audio_result)
| OfTranscription (r : transcription_result)
| Final (r : final_result)
| Failure (error : string) (text : pystr).

Definition output_success (o : output) : bool :=
  match o with
  | OfClassification r => LinkClassifier.success r
  | OfDownload r => d_success r
  | OfAudio r => a_success r
  | OfTranscription r => t_success r
  | Final r => success r
  | Failure _ _ => false
  end.

Inductive stage :=
| Classify
| Download
| ExtractAudio
| Transcribe
| ProcessText
| Persist.

Definition get {A} (field : option A) (default : A) : A :=
  match field with
  | Some v => v
  | None => default
  end.

Section Controller.

Variable unicode_decimal : N -> bool.

(** The collaborating modules; each catches its own exceptions and
    answers with a dict. *)
Variable download_video : pystr -> string -> download_result.
Variable extract_audio_from_video : string -> audio_result.
Variable transcribe_audio : string -> transcription_result.
Variable process_text : string -> string -> text_result.

(** The files [_save_transcription_result] manages to write, as the
    keys and paths it adds to the result. *)
Variable written_files : final_result -> list (string * string).

(** [_save_transcription_result] adds path keys to the result; an
    exception while saving is caught and the result is returned with
    the keys added so far. *)
Definition _save_transcription_result (r : final_result) : final_result :=
  {| success := success r; input_text := input_text r;
     link_type := link_type r; platform_id := platform_id r;
     video_path := video_path r; audio_path := audio_path r;
     transcript := transcript r;
     transcript_with_timestamps := transcript_with_timestamps r;
     formatted_text := formatted_text r;
     text_processing_success := text_processing_success r;
     text_processing_error := text_processing_error r;
     message := message r; title := title r; duration := duration r;
     size := size r; platform := platform r; url := url r;
     saved_files := written_files r |}.

(** [process_video_link(input_text)]: what is returned and the stages
    that ran, in order.  A subscript on an absent key raises
    [KeyError], which the outer [except] turns into a failure dict. *)
Definition process_video_link (text : pystr) : output * list stage :=
  let classification_result :=
    LinkClassifier.classify_link unicode_decimal text in
  if negb (LinkClassifier.success classification_result)
  then (OfClassification classification_result, [Classify])
  else
  match LinkClassifier.primary_link classification_result with
  | None => (Failure "未找到主要链接" text, [Classify])
  | Some primary_link =>
  let download_result :=
    download_video (LinkClassifier.url primary_link)
                   (LinkClassifier.type_ primary_link) in
  if negb (d_success download_result)
  then (OfDownload download_result, [Classify; Download])
  else
  match d_file_path download_result with
  | None => (Failure "'file_path'" text, [Classify; Download])
  | Some video_path0 =>
  let audio_result0 := extract_audio_from_video video_path0 in
  if negb (a_success audio_result0)
  then (OfAudio audio_result0, [Classify; Download; ExtractAudio])
  else
  match a_audio_path audio_result0 with
  | None => (Failure "'audio_path'" text,
             [Classify; Download; ExtractAudio])
  | Some audio_path0 =>
  let transcription_result0 := transcribe_audio audio_path0 in
  if negb (t_success transcription_result0)
  then (OfTranscription transcription_result0,
        [Classify; Download; ExtractAudio; Transcribe])
  else
  match t_transcript transcription_result0 with
  | None => (Failure "'transcript'" text,
             [Classify; Download; ExtractAudio; Transcribe])
  | Some transcript0 =>
  let text_result0 := process_text transcript0 "format" in
  let ran := [Classify; Download; ExtractAudio; Transcribe; ProcessText] in
  let formatted :=
    if x_success text_result0
    then match x_formatted_text text_result0 with
         | Some f => Some (f, "文本格式化完成")
         | None => None
         end
    else Some (transcript0,
               "文本格式化失败: " ++ get (x_error text_result0) "未知错误") in
  match formatted with
  | None => (Failure "'formatted_text'" text, ran)
  | Some (formatted_text0, text_message) =>
      let result :=
        {| success := true;
           input_text := text;
           link_type := LinkClassifier.type_ primary_link;
           platform_id := LinkClassifier.platform_id primary_link;
           video_path := video_path0;
           audio_path := audio_path0;
           transcript := transcript0;
           transcript_with_timestamps :=
             t_transcript_with_timestamps transcription_result0;
           formatted_text := formatted_text0;
           text_processing_success := x_success text_result0;
           text_processing_error :=
             if x_success text_result0 then None
             else x_error text_result0;
           message := "视频转录处理完成 - " ++ text_message;
           title := get (d_title download_result) "未知标题";
           duration := get (d_duration download_result) "未知";
           size := get (d_size download_result) "未知";
           platform := get (d_platform download_result)
                         (LinkClassifier.type_ primary_link);
           url := LinkClassifier.url primary_link;
           saved_files := [] |} in
      (Final (_save_transcription_result result), (ran ++ [Persist])%list)
  end end end end end.

End Controller.

End WorkflowController.

(** * Properties *)

(** ** The matcher finds only what the pattern describes *)

Module RegexFacts.
Import PyStr Regex.

Lemma star_loop_sound (A : Type) (r : regex)
    (body : pystr -> captures -> cont (A := A) -> option A) :
  (forall s c k a, body s c k = Some a ->
     exists s' c', Matches r s s' /\ k s' c' = Some a) ->
  forall fuel s c k a, star_loop body fuel s c k = Some a ->
    exists s' c', Matches (Star r) s s' /\ k s' c' = Some a.
Proof.
  intros Hbody fuel.
  induction fuel as [|fuel IH]; intros s c k a H; simpl in H.
  - exists s, c. split; [constructor | assumption].
  - destruct (body s c _) as [a'|] eqn:Hb.
    + inversion H; subst a'; clear H.
      apply Hbody in Hb. destruct Hb as (s1 & c1 & Hm & Hk).
      destruct (length s1 <? length s)%nat eqn:Hlt; [|discriminate].
      apply Nat.ltb_lt in Hlt.
      apply IH in Hk. destruct Hk as (s2 & c2 & Hm2 & Hk2).
      exists s2, c2. split; [|assumption].
      eapply MStarCons; eassumption.
    + exists s, c. split; [constructor | assumption].
Qed.

Lemma run_sound (A : Type) (r : regex) :
  forall s c (k : cont (A := A)) a, run r s c k = Some a ->
    exists s' c', Matches r s s' /\ k s' c' = Some a.
Proof.
  induction r as [|x|p|r1 IH1 r2 IH2|r1 IH1 r2 IH2|r IH|i r IH|];
    intros s c k a H; simpl in H.
  - exists s, c. split; [constructor | assumption].
  - destruct s as [|y s]; [discriminate|].
    destruct (x =? y)%N eqn:E; [|discriminate].
    apply N.eqb_eq in E; subst y.
    exists s, c. split; [constructor | assumption].
  - destruct s as [|y s]; [discriminate|].
    destruct (p y) eqn:E; [|discriminate].
    exists s, c. split; [constructor; assumption | assumption].
  - apply IH1 in H. destruct H as (s1 & c1 & Hm1 & H).
    apply IH2 in H. destruct H as (s2 & c2 & Hm2 & H).
    exists s2, c2. split; [econstructor; eassumption | assumption].
  - destruct (run r1 s c k) as [a'|] eqn:E.
    + inversion H; subst a'. apply IH1 in E.
      destruct E as (s1 & c1 & Hm & Hk).
      exists s1, c1. split; [apply MAltL; assumption | assumption].
    + apply IH2 in H. destruct H as (s1 & c1 & Hm & Hk).
      exists s1, c1. split; [apply MAltR; assumption | assumption].
  - eapply star_loop_sound; [|eassumption]. exact IH.
  - apply IH in H. destruct H as (s1 & c1 & Hm & Hk).
    eexists s1, _. split; [constructor; assumption | eassumption].
  - destruct s as [|y [|z s]].
    + exists [], c. split; [constructor | assumption].
    + destruct y; try discriminate.
      repeat (match goal with p : positive |- _ => destruct p; try discriminate end).
      exists [10%N], c. split; [constructor | assumption].
    + destruct y; try discriminate.
      repeat (match goal with p : positive |- _ => destruct p; try discriminate end).
Qed.

Lemma Matches_split (r : regex) (s s' : pystr) :
  Matches r s s' -> exists w, s = (w ++ s')%list.
Proof.
  induction 1.
  - exists []. reflexivity.
  - exists [x]. reflexivity.
  - exists [x]. reflexivity.
  - destruct IHMatches1 as [w1 ->]. destruct IHMatches2 as [w2 ->].
    exists (w1 ++ w2)%list. now rewrite <- app_assoc.
  - assumption.
  - assumption.
  - exists []. reflexivity.
  - destruct IHMatches1 as [w1 ->]. destruct IHMatches2 as [w2 ->].
    exists (w1 ++ w2)%list. now rewrite <- app_assoc.
  - assumption.
  - exists []. reflexivity.
  - exists []. reflexivity.
Qed.

Lemma matched_app (w s' : pystr) : matched (w ++ s')%list s' = w.
Proof.
  unfold matched. rewrite length_app.
  replace (length w + length s' - length s')%nat with (length w) by lia.
  rewrite firstn_app, firstn_all, Nat.sub_diag. simpl. apply app_nil_r.
Qed.

Lemma re_match_sound (r : regex) (s rest : pystr) (groups : captures) :
  re_match r s = Some (rest, groups) -> Matches r s rest.
Proof.
  unfold re_match. intros H. apply run_sound in H.
  destruct H as (s' & c' & Hm & Hk). inversion Hk; subst. assumption.
Qed.

(** Every element of [findall] is the text matched at some position. *)
Lemma findall_loop_sound (r : regex) (fuel : nat) :
  forall s x, In x (findall_loop fuel r s) ->
    exists pre rest, s = (pre ++ x ++ rest)%list /\ Matches r (x ++ rest)%list rest.
Proof.
  induction fuel as [|fuel IH]; intros s x Hin; simpl in Hin; [contradiction|].
  assert (Htail : forall y t, s = y :: t -> In x (findall_loop fuel r t) ->
            exists pre rest, s = (pre ++ x ++ rest)%list
                             /\ Matches r (x ++ rest)%list rest).
  { intros y t -> Ht. apply IH in Ht. destruct Ht as (pre & rest & -> & Hm).
    exists (y :: pre), rest. split; [reflexivity | assumption]. }
  destruct (re_match r s) as [[rest groups]|] eqn:E.
  - pose proof (re_match_sound _ _ _ _ E) as Hm.
    destruct (Matches_split _ _ _ Hm) as [w ->].
    rewrite matched_app in Hin.
    destruct Hin as [<- | Hin].
    + exists [], rest. split; [reflexivity | assumption].
    + destruct (length rest <? length (w ++ rest)%list)%nat.
      * apply IH in Hin. destruct Hin as (pre & rest' & -> & Hm').
        exists (w ++ pre)%list, rest'. split; [|assumption].
        now rewrite <- app_assoc.
      * destruct (w ++ rest)%list as [|y t] eqn:Es; [contradiction|].
        rewrite <- Es in *. eapply Htail; eauto.
  - destruct s as [|y t]; [contradiction|]. eapply Htail; eauto.
Qed.

End RegexFacts.

(** ** The matcher finds a match whenever the pattern has one *)

Module RegexComplete.
Import PyStr Regex.

Definition accepts {A} (k : cont (A := A)) (s : pystr) : Prop :=
  forall c, k s c <> None.

Lemma star_loop_complete (A : Type) (r : regex)
    (body : pystr -> captures -> cont (A := A) -> option A) :
  (forall s s' k, Matches r s s' -> accepts k s' ->
     forall c, body s c k <> None) ->
  forall fuel s s' k, Matches (Star r) s s' -> (length s <= fuel)%nat ->
    accepts k s' -> forall c, star_loop body fuel s c k <> None.
Proof.
  intros Hbody fuel.
  induction fuel as [|fuel IH]; intros s s' k Hm Hlen Hk c.
  - inversion Hm; subst.
    + simpl. apply Hk.
    + lia.
  - simpl. inversion Hm; subst.
    + destruct (body s' c _); [discriminate | apply Hk].
    + match goal with |- match ?b with _ => _ end <> None =>
        assert (Hb : b <> None)
      end.
      { eapply Hbody; [eassumption|].
        intros c'.
        match goal with
        | Hlt : (length ?a < length ?b)%nat |- _ =>
            apply Nat.ltb_lt in Hlt; rewrite Hlt; apply Nat.ltb_lt in Hlt
        end.
        eapply IH; [eassumption | lia | assumption]. }
      destruct (body s c _); [discriminate | congruence].
Qed.

Lemma run_complete (A : Type) (r : regex) :
  forall s s' (k : cont (A := A)), Matches r s s' -> accepts k s' ->
    forall c, run r s c k <> None.
Proof.
  induction r as [|x|p|r1 IH1 r2 IH2|r1 IH1 r2 IH2|r IH|i r IH|];
    intros s s' k Hm Hk c; inversion Hm; subst; simpl.
  - apply Hk.
  - rewrite N.eqb_refl. apply Hk.
  - match goal with Hp : p _ = true |- _ => rewrite Hp end. apply Hk.
  - eapply IH1; [eassumption|]. intros c'. eapply IH2; eassumption.
  - match goal with
    | Hl : Matches r1 _ _ |- _ => pose proof (IH1 _ _ _ Hl Hk c) as H
    end.
    destruct (run r1 s c k); [discriminate | congruence].
  - destruct (run r1 s c k); [discriminate|]. eapply IH2; eassumption.
  - eapply star_loop_complete; [exact IH | exact Hm | lia | assumption].
  - eapply star_loop_complete; [exact IH | exact Hm | lia | assumption].
  - eapply IH; [eassumption|]. intros c'. apply Hk.
  - apply Hk.
  - apply Hk.
Qed.

Lemma re_match_complete (r : regex) (s s' : pystr) :
  Matches r s s' -> re_match r s <> None.
Proof.
  intros Hm. unfold re_match. eapply run_complete; [eassumption|].
  intros c. discriminate.
Qed.

Lemma findall_loop_complete (r : regex) (fuel : nat) :
  forall s pre t, s = (pre ++ t)%list -> re_match r t <> None ->
    (length s < fuel)%nat -> findall_loop fuel r s <> [].
Proof.
  induction fuel as [|fuel IH]; intros s pre t Hs Hm Hlen; [lia|].
  simpl. destruct (re_match r s) as [[rest groups]|] eqn:E; [discriminate|].
  destruct pre as [|y pre]; simpl in Hs; subst s; [congruence|].
  eapply IH; [reflexivity | eassumption | simpl in Hlen; lia].
Qed.

End RegexComplete.

(** ** Link classifier *)

Module LinkClassifierFacts.
Import PyStr Regex RegexFacts LinkClassifier.

(** A URL-shaped text: the scheme [http://] or [https://] followed by a
    non-empty body without whitespace and without the excluded
    punctuation. *)
Definition url_shaped (w : pystr) : Prop :=
  exists body,
    (w = (u "http://" ++ body)%list \/ w = (u "https://" ++ body)%list)
    /\ body <> []
    /\ Forall (fun c => url_body_char c = true) body.

Definition has_type (t : string) (l : classified_link) : Prop :=
  type_ l = t.

(** The position of a tag in [priority_order]. *)
Fixpoint index_of (t : string) (order : list string) : nat :=
  match order with
  | [] => 0
  | t' :: order' => if String.eqb t' t then 0 else S (index_of t order')
  end.
Definition rank (t : string) : nat := index_of t priority_order.

Ltac inv_matches :=
  repeat match goal with
  | H : Matches (Seq _ _) _ _ |- _ => inversion H; subst; clear H
  | H : Matches (Char _) _ _ |- _ => inversion H; subst; clear H
  | H : Matches Empty _ _ |- _ => inversion H; subst; clear H
  | H : Matches (Alt _ _) _ _ |- _ => inversion H; subst; clear H
  | H : Matches (Class _) _ _ |- _ => inversion H; subst; clear H
  end.

Lemma star_class_shape (p : N -> bool) (s rest : pystr) :
  Matches (Star (Class p)) s rest ->
  exists w, s = (w ++ rest)%list /\ Forall (fun c => p c = true) w.
Proof.
  intros H. remember (Star (Class p)) as r eqn:Er.
  induction H; try discriminate.
  - exists []. split; [reflexivity | constructor].
  - inversion Er; subst r. clear Er IHMatches1.
    destruct (IHMatches2 eq_refl) as (w & -> & Hw).
    inversion H; subst.
    exists (x :: w). split; [reflexivity | constructor; assumption].
Qed.

Lemma url_pattern_shape (s rest : pystr) :
  Matches url_pattern s rest ->
  exists w, s = (w ++ rest)%list /\ url_shaped w.
Proof.
  unfold url_pattern, scheme, plus, opt, lit. simpl u. simpl lit_points.
  intros H. inv_matches;
    match goal with
    | H : Matches (Star _) _ _ |- _ =>
        apply star_class_shape in H; destruct H as (w & -> & Hw)
    end.
  - eexists. split.
    2:{ exists (x :: w). split; [right; reflexivity|].
        split; [discriminate | constructor; assumption]. }
    reflexivity.
  - eexists. split.
    2:{ exists (x :: w). split; [left; reflexivity|].
        split; [discriminate | constructor; assumption]. }
    reflexivity.
Qed.

(** A link is extracted only where the text has a URL-shaped part. *)
Lemma extract_links_sound (text x : pystr) :
  In x (_extract_links text) ->
  exists pre post, text = (pre ++ x ++ post)%list /\ url_shaped x.
Proof.
  unfold _extract_links, re_findall. intros H.
  apply findall_loop_sound in H. destruct H as (pre & rest & -> & Hm).
  apply url_pattern_shape in Hm. destruct Hm as (w & Hw & Hs).
  apply app_inv_tail in Hw. subst w.
  exists pre, rest. split; [reflexivity | assumption].
Qed.

(** [_select_primary_link] on a non-empty list falls back to its head. *)
Lemma first_by_priority_spec (order : list string)
    (ls : list classified_link) (p : classified_link) :
  first_by_priority order ls = Some p ->
  exists pre post,
    order = (pre ++ type_ p :: post)%list
    /\ find (fun l => String.eqb (type_ l) (type_ p)) ls = Some p
    /\ forall t, In t pre ->
         find (fun l => String.eqb (type_ l) t) ls = None.
Proof.
  induction order as [|t order IH]; simpl; [discriminate|].
  destruct (find (fun l => String.eqb (type_ l) t) ls) as [q|] eqn:E.
  - intros H. inversion H; subst q; clear H.
    pose proof (find_some _ _ E) as [_ Ht].
    apply String.eqb_eq in Ht. subst t.
    exists [], order. repeat split; [assumption | intros t []].
  - intros H. destruct (IH H) as (pre & post & -> & Hf & Hpre).
    exists (t :: pre), post. repeat split; [assumption|].
    intros t' [<- | Hin]; [assumption | auto].
Qed.

Lemma first_by_priority_finds (order : list string)
    (ls : list classified_link) (l : classified_link) :
  In l ls -> In (type_ l) order ->
  exists p, first_by_priority order ls = Some p.
Proof.
  intros Hl. induction order as [|t order IH]; simpl; [intros []|].
  destruct (find (fun l0 => String.eqb (type_ l0) t) ls) as [q|] eqn:E;
    [eauto|].
  intros [Heq | Hin]; [subst t | auto].
  exfalso. pose proof (find_none _ _ E _ Hl) as Hn. simpl in Hn.
  rewrite String.eqb_refl in Hn. discriminate.
Qed.

Lemma index_of_app_notin (t : string) (pre rest : list string) :
  ~ In t pre -> index_of t (pre ++ rest) = (length pre + index_of t rest)%nat.
Proof.
  induction pre as [|t' pre IH]; simpl; intros Hn; [reflexivity|].
  destruct (String.eqb_spec t' t) as [->|_]; [tauto|].
  rewrite IH; tauto.
Qed.

Lemma index_of_app_ge (t : string) (pre rest : list string) :
  ~ In t pre -> (length pre <= index_of t (pre ++ rest))%nat.
Proof. intros H. rewrite index_of_app_notin by assumption. lia. Qed.

Lemma select_primary_spec (ls : list classified_link) (p : classified_link) :
  _select_primary_link ls = Some p ->
  In p ls
  /\ (forall l, In l ls -> (rank (type_ p) <= rank (type_ l))%nat)
  /\ find (fun l => String.eqb (type_ l) (type_ p)) ls = Some p.
Proof.
  unfold _select_primary_link.
  destruct ls as [|first rest]; [discriminate|].
  destruct (first_by_priority priority_order (first :: rest)) as [q|] eqn:E.
  - intros H. inversion H; subst q; clear H.
    destruct (first_by_priority_spec _ _ _ E) as (pre & post & Ho & Hf & Hpre).
    split; [exact (proj1 (find_some _ _ Hf))|]. split; [|assumption].
    intros l Hl. unfold rank. rewrite Ho.
    assert (Hnp : ~ In (type_ p) pre).
    { intros Hin.
      pose proof (NoDup_remove_2 pre post (type_ p)) as Hnd.
      rewrite <- Ho in Hnd.
      apply Hnd; [|apply in_or_app; left; assumption].
      unfold priority_order.
      repeat (constructor; [simpl; intuition discriminate|]). constructor. }
    rewrite (index_of_app_notin _ _ _ Hnp). simpl.
    rewrite String.eqb_refl, Nat.add_0_r.
    apply index_of_app_ge. intros Hin.
    pose proof (find_none _ _ (Hpre _ Hin) _ Hl) as Hn. simpl in Hn.
    rewrite String.eqb_refl in Hn. discriminate.
  - intros H. inversion H; subst p; clear H.
    split; [left; reflexivity|]. split.
    + intros l Hl.
      assert (Hout : forall l0, In l0 (first :: rest) ->
                       ~ In (type_ l0) priority_order).
      { intros l0 Hl0 Hin.
        destruct (first_by_priority_finds _ _ _ Hl0 Hin) as [q Hq].
        congruence. }
      assert (Hr : forall t, ~ In t priority_order ->
                     rank t = length priority_order).
      { intros t Hn. unfold rank.
        rewrite <- (app_nil_r priority_order) at 1.
        rewrite index_of_app_notin by assumption. simpl. lia. }
      rewrite (Hr _ (Hout _ (or_introl eq_refl))), (Hr _ (Hout _ Hl)). lia.
    + simpl. rewrite String.eqb_refl. reflexivity.
Qed.

Lemma select_primary_nonempty (ls : list classified_link) :
  ls <> [] -> exists p, _select_primary_link ls = Some p.
Proof.
  destruct ls as [|first rest]; [congruence|]. intros _.
  unfold _select_primary_link.
  destruct (first_by_priority priority_order (first :: rest)); eauto.
Qed.

Lemma rank_direct_video_least (t : string) :
  (rank t <= rank "direct_video")%nat -> t = "direct_video".
Proof.
  unfold rank. change (index_of "direct_video" priority_order) with 0%nat.
  unfold priority_order. cbn [index_of].
  destruct (String.eqb_spec "direct_video" t) as [<-|_]; [reflexivity|].
  intros H. lia.
Qed.

(** C3.  The primary link is chosen by the fixed priority order: it is
    a link of the list, no link of the list carries a tag that comes
    earlier in [priority_order], and it is the first link carrying its
    tag.  So when the list holds a [direct_video] link and a [bilibili]
    link, the primary link is tagged [direct_video], in whatever order
    the links come; the same holds for the links of a classified text. *)
Theorem C3_primary_by_priority (dec : N -> bool) :
  (forall ls p, _select_primary_link ls = Some p ->
     In p ls
     /\ (forall l, In l ls -> (rank (type_ p) <= rank (type_ l))%nat)
     /\ find (fun l => String.eqb (type_ l) (type_ p)) ls = Some p)
  /\ (forall ls ls',
        Exists (has_type "direct_video") ls ->
        Exists (has_type "bilibili") ls ->
        Permutation ls ls' ->
        exists p, _select_primary_link ls' = Some p
                  /\ In p ls /\ type_ p = "direct_video")
  /\ (forall text,
        Exists (has_type "direct_video") (links (classify_link dec text)) ->
        Exists (has_type "bilibili") (links (classify_link dec text)) ->
        exists p, primary_link (classify_link dec text) = Some p
                  /\ type_ p = "direct_video").
Proof.
  assert (Hperm : forall ls ls',
        Exists (has_type "direct_video") ls ->
        Permutation ls ls' ->
        exists p, _select_primary_link ls' = Some p
                  /\ In p ls /\ type_ p = "direct_video").
  { intros ls ls' Hdv Hp.
    apply List.Exists_exists in Hdv. destruct Hdv as (d & Hd & Htd).
    unfold has_type in Htd.
    assert (Hd' : In d ls') by exact (Permutation_in d Hp Hd).
    destruct (select_primary_nonempty ls') as [p Hsel].
    { intros ->. destruct Hd'. }
    destruct (select_primary_spec _ _ Hsel) as (Hin & Hmin & _).
    exists p. split; [assumption|]. split.
    - exact (Permutation_in p (Permutation_sym Hp) Hin).
    - apply rank_direct_video_least. rewrite <- Htd. auto. }
  split; [exact select_primary_spec|]. split.
  - intros ls ls' Hdv _ Hp. eauto.
  - intros text Hdv _. unfold classify_link in *.
    destruct (_extract_links text) as [|x xs]; simpl in *.
    + inversion Hdv.
    + destruct (Hperm _ _ Hdv (Permutation_refl _)) as (p & Hs & _ & Ht).
      exists p. split; assumption.
Qed.

Lemma star_class_complete (p : N -> bool) (w rest : pystr) :
  Forall (fun c => p c = true) w ->
  Matches (Star (Class p)) (w ++ rest)%list rest.
Proof.
  induction 1 as [|x w Hx _ IH]; simpl; [constructor|].
  eapply MStarCons; [constructor; exact Hx | simpl; lia | exact IH].
Qed.

Lemma url_shaped_matches (w rest : pystr) :
  url_shaped w -> Matches url_pattern (w ++ rest)%list rest.
Proof.
  intros (body & Hw & Hne & Hall).
  destruct body as [|x body]; [congruence|].
  inversion Hall as [|? ? Hx Hbody]; subst.
  assert (Hplus : Matches (plus (Class url_body_char))
                    ((x :: body) ++ rest)%list rest).
  { unfold plus. econstructor; [constructor; exact Hx|].
    apply star_class_complete. assumption. }
  unfold url_pattern, scheme, opt, lit. simpl u. simpl lit_points.
  destruct Hw as [-> | ->]; simpl u; rewrite <- app_assoc; simpl app.
  - econstructor; [|exact Hplus].
    repeat (econstructor; try (apply MAltR; constructor)).
  - econstructor; [|exact Hplus].
    repeat (econstructor; try (apply MAltL; constructor)).
Qed.

(** No link is extracted exactly when no part of the text is
    URL-shaped. *)
Lemma extract_links_empty_iff (text : pystr) :
  _extract_links text = [] <->
  (forall pre w post, text = (pre ++ w ++ post)%list -> ~ url_shaped w).
Proof.
  split.
  - intros He pre w post -> Hw.
    unfold _extract_links, re_findall in He.
    eapply RegexComplete.findall_loop_complete in He; [exact He| reflexivity | | lia].
    eapply RegexComplete.re_match_complete. apply url_shaped_matches. exact Hw.
  - intros Hnone.
    destruct (_extract_links text) as [|x xs] eqn:E; [reflexivity|].
    exfalso.
    destruct (extract_links_sound text x) as (pre & post & Ht & Hs).
    { rewrite E. left. reflexivity. }
    exact (Hnone _ _ _ Ht Hs).
Qed.

(** C9.  A text with no URL-shaped part is classified without error
    into the failure result with no links and no primary link. *)
Theorem C9_no_url_soft_failure (dec : N -> bool) (text : pystr) :
  (forall pre w post, text = (pre ++ w ++ post)%list -> ~ url_shaped w) ->
  classify_link dec text =
    {| success := false; error := Some "未找到任何链接"; links := [];
       primary_link := None; total_links := None |}.
Proof.
  intros Hnone. apply extract_links_empty_iff in Hnone.
  unfold classify_link. rewrite Hnone. reflexivity.
Qed.

Lemma C9_witness :
  classify_link ascii_decimal (u "no link here, only http:// and www.x.com") =
    {| success := false; error := Some "未找到任何链接"; links := [];
       primary_link := None; total_links := None |}.
Proof.
  apply C9_no_url_soft_failure.
  apply extract_links_empty_iff. vm_compute. reflexivity.
Defined.

Lemma identify_in_tag (table : list (string * list regex)) (url0 : pystr) :
  fst (identify_in table url0) = "unknown"
  \/ In (fst (identify_in table url0)) (map fst table).
Proof.
  induction table as [|[link_type patterns] table IH]; simpl.
  - left. reflexivity.
  - destruct (match_patterns patterns url0); simpl.
    + right. left. reflexivity.
    + destruct IH as [IH | IH]; [left | right; right]; assumption.
Qed.

(** Every classified link carries one of the eight tags. *)
Lemma classify_one_tag (dec : N -> bool) (link : pystr) :
  In (type_ (classify_one dec link)) priority_order.
Proof.
  unfold classify_one, _identify_link_type.
  pose proof (identify_in_tag (link_patterns dec) link) as H.
  destruct (identify_in (link_patterns dec) link) as [t pid]. simpl in *.
  destruct H as [-> | H].
  - simpl. tauto.
  - simpl in H. simpl. intuition.
Qed.

(** C10.  When at least one link is extracted, classification succeeds
    with a primary link: every classified link carries one of the eight
    tags of [priority_order], so the priority loops already find the
    primary link among the links; and on any non-empty list the
    selection yields a link, the head of the list at the latest. *)
Theorem C10_primary_exists (dec : N -> bool) (text : pystr) :
  _extract_links text <> [] ->
  let c := classify_link dec text in
  success c = true
  /\ map url (links c) = _extract_links text
  /\ Forall (fun l => In (type_ l) priority_order) (links c)
  /\ (exists p, primary_link c = Some p /\ In p (links c)
                /\ first_by_priority priority_order (links c) = Some p)
  /\ (forall ls : list classified_link,
        ls <> [] -> exists p, _select_primary_link ls = Some p).
Proof.
  intros Hne c. subst c. unfold classify_link.
  destruct (_extract_links text) as [|x xs] eqn:E; [congruence|].
  cbn [success links primary_link].
  split; [reflexivity|]. split.
  { rewrite map_map. rewrite <- (map_id (x :: xs)) at 2.
    apply map_ext. intros a. unfold classify_one.
    destruct (_identify_link_type dec a). reflexivity. }
  assert (Hall : Forall (fun l => In (type_ l) priority_order)
                   (map (classify_one dec) (x :: xs))).
  { apply List.Forall_forall. intros l Hl. apply in_map_iff in Hl.
    destruct Hl as (a & <- & _). apply classify_one_tag. }
  split; [exact Hall|]. split; [|exact select_primary_nonempty].
  set (ls := map (classify_one dec) (x :: xs)) in *.
  destruct (first_by_priority_finds priority_order ls (classify_one dec x))
    as [p Hp].
  { left. reflexivity. }
  { apply classify_one_tag. }
  exists p. split; [|split].
  - unfold _select_primary_link. subst ls. cbn [map].
    cbn [map] in Hp. rewrite Hp. reflexivity.
  - destruct (first_by_priority_spec _ _ _ Hp) as (_ & _ & _ & Hf & _).
    exact (proj1 (find_some _ _ Hf)).
  - exact Hp.
Qed.

Lemma C10_witness :
  let c := classify_link ascii_decimal
             (u "see https://example.org/page and https://youtu.be/abc") in
  success c = true /\ exists p, primary_link c = Some p.
Proof.
  destruct (C10_primary_exists ascii_decimal
              (u "see https://example.org/page and https://youtu.be/abc"))
    as (Hs & _ & _ & (p & Hp & _) & _).
  { vm_compute. discriminate. }
  split; [exact Hs | exists p; exact Hp].
Defined.

Definition bilibili_first : list classified_link :=
  [ classify_one ascii_decimal (u "https://www.bilibili.com/video/BV1xx411c7mD");
    classify_one ascii_decimal (u "https://cdn.example.com/clip.mp4") ].

Lemma C3_witness :
  exists p, _select_primary_link (rev bilibili_first) = Some p
            /\ In p bilibili_first /\ type_ p = "direct_video".
Proof.
  apply (proj1 (proj2 (C3_primary_by_priority ascii_decimal))
           bilibili_first (rev bilibili_first)).
  - apply Exists_cons_tl. apply Exists_cons_hd. vm_compute. reflexivity.
  - apply Exists_cons_hd. vm_compute. reflexivity.
  - apply Permutation_rev.
Defined.

End LinkClassifierFacts.

(** ** Candidate selector *)

Module VideoDownloaderFacts.
Import PyStr VideoDownloader.
Local Open Scope Z_scope.

Lemma eqb_eq (a b : pystr) : eqb a b = true <-> a = b.
Proof.
  revert b. induction a as [|x a IH]; intros [|y b]; simpl;
    try (split; [discriminate | congruence]); [tauto|].
  rewrite andb_true_iff, N.eqb_eq, IH.
  split; [intros [-> ->]; reflexivity | intros H; inversion H; auto].
Qed.

Lemma eqb_neq (a b : pystr) : a <> b -> eqb a b = false.
Proof.
  intros H. destruct (eqb a b) eqn:E; [|reflexivity].
  apply eqb_eq in E. contradiction.
Qed.

Lemma quality_score_bounds (info : url_info) : 0 <= quality_score info <= 3.
Proof.
  unfold quality_score.
  repeat match goal with |- context [if ?b then _ else _] => destruct b end;
    lia.
Qed.

Lemma format_score_bounds (info : url_info) : 0 <= format_score info <= 2.
Proof.
  unfold format_score.
  repeat match goal with |- context [if ?b then _ else _] => destruct b end;
    lia.
Qed.

Lemma size_score_bounds (info : url_info) : 0 <= size_score info <= 2.
Proof.
  unfold size_score.
  repeat match goal with |- context [if ?b then _ else _] => destruct b end;
    lia.
Qed.

Lemma score_nonneg (info : url_info) : 0 <= score info.
Proof.
  pose proof (quality_score_bounds info).
  pose proof (format_score_bounds info).
  pose proof (size_score_bounds info).
  unfold score. lia.
Qed.

(** The loop keeps the first candidate that reaches the best score. *)
Lemma best_loop_spec (l : list url_info) :
  forall best_url best_score,
    (best_loop l best_url best_score = best_url
     /\ forall c, In c l -> score c <= best_score)
    \/ exists pre c post,
         l = (pre ++ c :: post)%list
         /\ best_loop l best_url best_score = url c
         /\ best_score < score c
         /\ (forall c', In c' pre -> score c' < score c)
         /\ (forall c', In c' post -> score c' <= score c).
Proof.
  induction l as [|info rest IH]; intros best_url best_score; simpl.
  - left. split; [reflexivity | intros c []].
  - destruct (best_score <? score info) eqn:E.
    + apply Z.ltb_lt in E. right.
      destruct (IH (url info) (score info))
        as [[Hb Hle] | (pre & c & post & -> & Hb & Hlt & Hpre & Hpost)].
      * exists [], info, rest. repeat split; try assumption.
        intros c' [].
      * exists (info :: pre), c, post. repeat split; try assumption.
        -- lia.
        -- intros c' [<- | Hin]; [assumption | auto].
    + apply Z.ltb_ge in E.
      destruct (IH best_url best_score)
        as [[Hb Hle] | (pre & c & post & -> & Hb & Hlt & Hpre & Hpost)].
      * left. split; [assumption|].
        intros c [<- | Hin]; [assumption | auto].
      * right. exists (info :: pre), c, post. repeat split; try assumption.
        intros c' [<- | Hin]; [lia | auto].
Qed.

(** The two candidates of the example. *)
Definition candidate_720 : url_info :=
  {| url := u "https://cdn.example.com/720.mp4"; quality := Some (u "720p");
     format := Some (u "mp4"); size := Some (50 * MB) |}.
Definition candidate_1080 : url_info :=
  {| url := u "https://cdn.example.com/1080.flv"; quality := Some (u "1080p");
     format := Some (u "flv"); size := Some (600 * MB) |}.

(** C4.  The score of a candidate is the sum of a quality part, a
    format part and a size part with the values of the table; the
    selector returns the URL of the first candidate whose score is the
    highest of the list; on the example it picks the 720p mp4 candidate,
    6 against 3. *)
Theorem C4_selector_scoring :
  (forall c, score c = quality_score c + format_score c + size_score c)
  /\ (forall c,
        let q := lower (get (quality c) (u "unknown")) in
        (contains (u "1080") q = true \/ contains (u "hd") q = true ->
         quality_score c = 3)
        /\ (contains (u "1080") q = false -> contains (u "hd") q = false ->
            contains (u "720") q = true -> quality_score c = 2)
        /\ (contains (u "1080") q = false -> contains (u "hd") q = false ->
            contains (u "720") q = false -> contains (u "480") q = true ->
            quality_score c = 1)
        /\ (contains (u "1080") q = false -> contains (u "hd") q = false ->
            contains (u "720") q = false -> contains (u "480") q = false ->
            quality_score c = 0))
  /\ (forall c,
        let f := lower (get (format c) (u "unknown")) in
        (f = u "mp4" \/ f = u "webm" -> format_score c = 2)
        /\ (f = u "direct" -> format_score c = 1)
        /\ (f <> u "mp4" -> f <> u "webm" -> f <> u "direct" ->
            format_score c = 0))
  /\ (forall c,
        let s := get (size c) 0 in
        (0 < s < 100 * MB -> size_score c = 2)
        /\ (100 * MB <= s < 500 * MB -> size_score c = 1)
        /\ (s <= 0 \/ 500 * MB <= s -> size_score c = 0))
  /\ (forall l, l <> [] ->
        exists pre c post,
          l = (pre ++ c :: post)%list
          /\ _select_best_download_url l = url c
          /\ (forall c', In c' l -> score c' <= score c)
          /\ (forall c', In c' pre -> score c' < score c))
  /\ (score candidate_720 = 6 /\ score candidate_1080 = 3
      /\ _select_best_download_url [candidate_720; candidate_1080]
         = url candidate_720).
Proof.
  split; [intros c; unfold score; lia|].
  split.
  { intros c q. subst q. unfold quality_score.
    set (q := lower (get (quality c) (u "unknown"))).
    split; [|split; [|split]].
    - intros [H | H]; rewrite H; [|rewrite orb_true_r]; reflexivity.
    - intros H1 H2 H3. rewrite H1, H2, H3. reflexivity.
    - intros H1 H2 H3 H4. rewrite H1, H2, H3, H4. reflexivity.
    - intros H1 H2 H3 H4. rewrite H1, H2, H3, H4. reflexivity. }
  split.
  { intros c f. subst f. unfold format_score. cbn [existsb].
    set (f := lower (get (format c) (u "unknown"))).
    split; [|split].
    - intros [-> | ->]; reflexivity.
    - intros ->. reflexivity.
    - intros H1 H2 H3.
      rewrite !eqb_neq by assumption. reflexivity. }
  split.
  { intros c s. subst s. unfold size_score, MB.
    set (s := get (size c) 0).
    split; [|split]; intros H.
    - destruct (Z.ltb_spec 0 s); [|lia].
      destruct (Z.ltb_spec s (100 * (1024 * 1024))); [reflexivity | lia].
    - destruct (Z.ltb_spec 0 s); [|lia].
      destruct (Z.ltb_spec s (100 * (1024 * 1024))); [lia|].
      destruct (Z.ltb_spec s (500 * (1024 * 1024))); [reflexivity | lia].
    - destruct (Z.ltb_spec 0 s); [|reflexivity].
      destruct (Z.ltb_spec s (100 * (1024 * 1024))); [lia|].
      destruct (Z.ltb_spec s (500 * (1024 * 1024))); [lia | reflexivity]. }
  split.
  { intros l Hne. unfold _select_best_download_url.
    destruct l as [|first rest]; [congruence|].
    destruct (best_loop_spec (first :: rest) (url first) 0)
      as [[Hb Hle] | (pre & c & post & Hl & Hb & Hlt & Hpre & Hpost)].
    - exists [], first, rest. repeat split; [assumption | | intros c' []].
      intros c' Hin. pose proof (Hle _ Hin). pose proof (score_nonneg first).
      pose proof (Hle first (or_introl eq_refl)). lia.
    - exists pre, c, post. repeat split; try assumption.
      intros c' Hin. rewrite Hl in Hin. apply in_app_or in Hin.
      destruct Hin as [Hin | [<- | Hin]];
        [pose proof (Hpre _ Hin); lia | lia | auto]. }
  repeat split; vm_compute; reflexivity.
Qed.

End VideoDownloaderFacts.

(** ** Direct downloader *)

Module DirectDownloaderFacts.
Import DirectDownloader.
Local Open Scope Z_scope.

Section Runs.
Variable download_dir : string.
Variable max_file_size_mb : Z.
Variable format_mb : Z -> string.
Variable server : nat -> reply.
Variable now : Z.

Abbreviation try_once := (try_once download_dir max_file_size_mb format_mb server).
Abbreviation attempts := (attempts download_dir max_file_size_mb format_mb server).
Abbreviation write_chunks := (write_chunks max_file_size_mb format_mb).
Abbreviation stream := (stream max_file_size_mb format_mb).
Abbreviation receive := (receive max_file_size_mb format_mb).

(** The handlers only sleep. *)
Lemma handle_no_request (attempt : nat) (url0 : string) (e : exn)
    (st : step) (ev : list event) (k : nat) :
  DirectDownloader.handle attempt url0 e = (st, ev) -> ~ In (EvRequest k) ev.
Proof.
  unfold DirectDownloader.handle. intros H Hin.
  destruct e;
    repeat match type of H with
           | context [if ?b then _ else _] => destruct b
           end;
    inversion H; subst; simpl in Hin; intuition discriminate.
Qed.

Lemma handle_429 (attempt : nat) (url0 text : string) :
  (attempt + 1 < max_retries)%nat ->
  DirectDownloader.handle attempt url0 (HTTPError 429 text)
  = (Continue, [EvSleep (retry_delay * 2)]).
Proof.
  intros H. unfold DirectDownloader.handle. cbn.
  match goal with
  | |- (if ?b then _ else _) = _ => destruct b eqn:E
  end; [reflexivity | exfalso].
  unfold max_retries in H.
  first [apply Nat.leb_gt in E | apply Nat.ltb_ge in E]; lia.
Qed.

(** Writing chunks keeps the file in place unless the limit is hit. *)
Lemma write_chunks_keeps (path url0 : string)
    (body : list (list Byte.byte)) :
  forall downloaded fs fs1,
    write_chunks path url0 body downloaded fs = (None, fs1) ->
    fs !! path <> None -> fs1 !! path <> None.
Proof.
  induction body as [|chunk rest IH]; intros downloaded fs fs1 H Hfs;
    simpl in H.
  - inversion H; subst. assumption.
  - destruct chunk as [|b chunk]; [eauto|].
    destruct (_ <? _); [discriminate|].
    eapply IH; [eassumption|]. rewrite lookup_insert_eq. discriminate.
Qed.

(** An attempt that goes on to the next one after it received a
    response has left a file at the destination. *)
Lemma stream_continue (attempt : nat) (url0 name path : string)
    (r : response) (fs fs1 : gmap string (list Byte.byte))
    (ev : list event) :
  stream attempt url0 name path r fs = (Continue, fs1, ev) ->
  fs1 !! path <> None.
Proof.
  unfold DirectDownloader.stream.
  destruct (write_chunks path url0 (chunks r) 0 (<[path:=[]]> fs))
    as [[too_large|] fs'] eqn:Ew; [discriminate|].
  destruct (ending r) as [|e].
  - destruct (fs' !! path); [|discriminate].
    destruct (_ =? 0); discriminate.
  - destruct (DirectDownloader.handle attempt url0 e) as [st ev0].
    intros H. inversion H; subst.
    eapply write_chunks_keeps; [eassumption|].
    rewrite lookup_insert_eq. discriminate.
Qed.

Lemma stream_events (attempt : nat) (url0 name path : string)
    (r : response) (fs fs1 : gmap string (list Byte.byte))
    (st : step) (ev : list event) (k : nat) :
  stream attempt url0 name path r fs = (st, fs1, ev) ->
  ~ In (EvRequest k) ev.
Proof.
  unfold DirectDownloader.stream.
  destruct (write_chunks path url0 (chunks r) 0 (<[path:=[]]> fs))
    as [[too_large|] fs'] eqn:Ew.
  - intros H. inversion H; subst. intros [].
  - destruct (ending r) as [|e].
    + destruct (fs' !! path).
      * destruct (_ =? 0); intros H; inversion H; subst; intros [].
      * intros H; inversion H; subst; intros [].
    + destruct (DirectDownloader.handle attempt url0 e) as [st0 ev0] eqn:Eh.
      intros H. inversion H; subst.
      eapply handle_no_request; eassumption.
Qed.

(** Once the destination exists no request is made any more. *)
Lemma attempts_existing (todo : list nat) (url0 name : string)
    (fs : gmap string (list Byte.byte)) :
  fs !! os_path_join download_dir name <> None ->
  snd (attempts todo url0 name fs) = [].
Proof.
  intros Hfs. destruct todo as [|a todo]; [reflexivity|].
  simpl. unfold DirectDownloader.try_once.
  destruct (fs !! os_path_join download_dir name); [reflexivity|congruence].
Qed.


(** What receiving a response can do: reject it on the declared size
    and leave the files alone, or go on to stream it. *)
Lemma receive_cases (attempt : nat) (url0 name path : string)
    (r : response) (fs fs1 : gmap string (list Byte.byte))
    (st : step) (ev : list event) :
  receive attempt url0 name path r fs = (st, fs1, ev) ->
  (exists n res, content_length r = HInt n /\ max_file_size max_file_size_mb < n
     /\ st = Return res /\ success res = false /\ fs1 = fs /\ ev = [])
  \/ ((forall n, content_length r = HInt n ->
         n <= max_file_size max_file_size_mb)
      /\ (st = Continue -> fs1 !! path <> None)
      /\ (forall k, ~ In (EvRequest k) ev)).
Proof.
  unfold DirectDownloader.receive. intros H.
  destruct (content_length r) as [|n|text] eqn:Ec.
  - right. split; [discriminate|]. split.
    + intros ->. eapply stream_continue; eassumption.
    + intros k. eapply stream_events; eassumption.
  - destruct (Z.ltb_spec (max_file_size max_file_size_mb) n).
    + left. exists n. eexists. inversion H; subst.
      repeat split; assumption.
    + right. split; [intros n0 Hn0; inversion Hn0; subst; assumption|].
      split.
      * intros ->. eapply stream_continue; eassumption.
      * intros k. eapply stream_events; eassumption.
  - right. split; [discriminate|].
    cbn in H. inversion H; subst.
    split; [discriminate | intros k []].
Qed.

(** What one iteration can do. *)
Lemma try_once_cases (attempt : nat) (url0 name : string)
    (fs fs1 : gmap string (list Byte.byte)) (st : step)
    (ev : list event) :
  try_once attempt url0 name fs = (st, fs1, ev) ->
  (ev = [] /\ fs !! os_path_join download_dir name <> None)
  \/ (fs !! os_path_join download_dir name = None
      /\ exists evs, ev = EvRequest attempt :: evs
           /\ (forall k, ~ In (EvRequest k) evs)
           /\ ((exists e, server attempt = Raises e /\ fs1 = fs
                   /\ DirectDownloader.handle attempt url0 e = (st, evs))
               \/ (exists r, server attempt = Responds r
                     /\ receive attempt url0 name
                          (os_path_join download_dir name) r fs
                        = (st, fs1, evs)))).
Proof.
  unfold DirectDownloader.try_once. intros H.
  destruct (fs !! os_path_join download_dir name) eqn:Efs.
  - left. inversion H; subst. split; [reflexivity | discriminate].
  - right. split; [reflexivity|].
    destruct (server attempt) as [e|r] eqn:Es.
    + destruct (DirectDownloader.handle attempt url0 e) as [st0 ev0] eqn:Eh.
      inversion H; subst. exists ev0. split; [reflexivity|]. split.
      * intros k. eapply handle_no_request; eassumption.
      * left. exists e. auto.
    + destruct (receive attempt url0 name _ r fs) as [[st0 fs0] ev0] eqn:Er.
      inversion H; subst. exists ev0. split; [reflexivity|]. split.
      * intros k. destruct (receive_cases _ _ _ _ _ _ _ _ _ Er)
          as [(n & res & _ & _ & _ & _ & _ & ->) | (_ & _ & Hno)];
          [intros [] | apply Hno].
      * right. exists r. auto.
Qed.

Lemma attempts_oversize (todo : list nat) (url0 name : string) :
  forall fs res fs' ev,
    attempts todo url0 name fs = (res, fs', ev) ->
    forall k r n,
      In (EvRequest k) ev -> server k = Responds r ->
      content_length r = HInt n -> max_file_size max_file_size_mb < n ->
      success res = false /\ fs' = fs
      /\ fs' !! os_path_join download_dir name = None.
Proof.
  induction todo as [|a todo IH]; intros fs res fs' ev H k r n Hin Hk Hc Hn.
  - simpl in H. inversion H; subst. destruct Hin.
  - simpl in H.
    destruct (try_once a url0 name fs) as [[st fs1] ev1] eqn:Et.
    destruct (try_once_cases _ _ _ _ _ _ _ Et)
      as [[-> Hex] | (Hfs & evs & -> & Hno & Hcase)].
    { destruct st as [r0|].
      - inversion H; subst. destruct Hin.
      - destruct (attempts todo url0 name fs1) as [[r2 fs2] ev2] eqn:Ea.
        inversion H; subst. simpl in Hin.
        unfold DirectDownloader.try_once in Et.
        destruct (fs !! os_path_join download_dir name);
          [discriminate | congruence]. }
    assert (Hlater : st = Continue ->
              forall r2 fs2 ev2,
                attempts todo url0 name fs1 = (r2, fs2, ev2) ->
                In (EvRequest k) ev2 ->
                success r2 = false /\ fs2 = fs
                /\ fs2 !! os_path_join download_dir name = None).
    { intros -> r2 fs2 ev2 Ea Hin2.
      destruct Hcase as [(e & Hs & -> & Hh) | (r0 & Hs & Hr)].
      - eapply IH; eassumption.
      - destruct (receive_cases _ _ _ _ _ _ _ _ _ Hr)
          as [(n0 & res0 & _ & _ & Hst & _) | (_ & Hkeep & _)];
          [discriminate|].
        pose proof (attempts_existing todo url0 name fs1 (Hkeep eq_refl))
          as Hnil.
        rewrite Ea in Hnil. simpl in Hnil. subst ev2. destruct Hin2. }
    assert (Hhere : k = a -> success res = false /\ fs' = fs
              /\ fs' !! os_path_join download_dir name = None).
    { intros ->.
      destruct Hcase as [(e & Hs & _) | (r0 & Hs & Hr)]; [congruence|].
      rewrite Hk in Hs. inversion Hs; subst r0.
      destruct (receive_cases _ _ _ _ _ _ _ _ _ Hr)
        as [(n0 & res0 & _ & _ & -> & Hres & -> & ->) | (Hle & _)].
      - inversion H; subst. auto.
      - specialize (Hle _ Hc). lia. }
    destruct st as [r0|].
    + inversion H; subst. destruct Hin as [Heq | Hin].
      * inversion Heq; subst. auto.
      * exfalso. exact (Hno _ Hin).
    + destruct (attempts todo url0 name fs1) as [[r2 fs2] ev2] eqn:Ea.
      inversion H; subst. simpl in Hin.
      destruct Hin as [Heq | Hin].
      * inversion Heq; subst. auto.
      * apply in_app_or in Hin. destruct Hin as [Hin | Hin].
        -- exfalso. exact (Hno _ Hin).
        -- eapply Hlater; eauto.
Qed.

Lemma attempts_429 (todo : list nat) (url0 name : string) :
  forall fs res fs' ev,
    attempts todo url0 name fs = (res, fs', ev) ->
    forall k text,
      In (EvRequest k) ev -> server k = Raises (HTTPError 429 text) ->
      (k + 1 < max_retries)%nat ->
      exists pre post,
        ev = (pre ++ EvRequest k :: EvSleep (retry_delay * 2) :: post)%list.
Proof.
  induction todo as [|a todo IH]; intros fs res fs' ev H k text Hin Hk Hlt.
  - simpl in H. inversion H; subst. destruct Hin.
  - simpl in H.
    destruct (try_once a url0 name fs) as [[st fs1] ev1] eqn:Et.
    destruct (try_once_cases _ _ _ _ _ _ _ Et)
      as [[-> Hex] | (Hfs & evs & -> & Hno & Hcase)].
    { unfold DirectDownloader.try_once in Et.
      destruct (fs !! os_path_join download_dir name); [|congruence].
      inversion Et; subst. inversion H; subst. destruct Hin. }
    assert (Hhere : k = a -> st = Continue
                             /\ evs = [EvSleep (retry_delay * 2)]).
    { intros ->.
      destruct Hcase as [(e & Hs & _ & Hh) | (r0 & Hs & _)]; [|congruence].
      rewrite Hk in Hs. inversion Hs; subst e.
      rewrite (handle_429 _ _ _ Hlt) in Hh. inversion Hh; auto. }
    destruct st as [r0|].
    + inversion H; subst. destruct Hin as [Heq | Hin].
      * inversion Heq; subst. destruct (Hhere eq_refl); discriminate.
      * exfalso. exact (Hno _ Hin).
    + destruct (attempts todo url0 name fs1) as [[r2 fs2] ev2] eqn:Ea.
      inversion H; subst. simpl in Hin.
      destruct Hin as [Heq | Hin].
      * inversion Heq; subst. destruct (Hhere eq_refl) as [_ ->].
        exists [], ev2. reflexivity.
      * apply in_app_or in Hin. destruct Hin as [Hin | Hin].
        -- exfalso. exact (Hno _ Hin).
        -- destruct (IH _ _ _ _ Ea _ _ Hin Hk Hlt) as (pre & post & ->).
           exists (EvRequest a :: evs ++ pre)%list, post.
           simpl. rewrite <- app_assoc. reflexivity.
Qed.

End Runs.

(** Remote ends and settings used in the examples. *)
Definition show_mb (n : Z) : string := Z_to_string (n / (1024 * 1024)).

Definition always_429 (attempt : nat) : reply :=
  Raises (HTTPError 429 "429 Client Error: Too Many Requests").

Definition oversized (attempt : nat) : reply :=
  Responds {| content_length := HInt (11 * 1024 * 1024);
              chunks := [[Byte.x00]]; ending := Complete |}.

(** The connection times out twice; the third response sends two bytes
    and then the read fails. *)
Definition stalls_on_last_attempt (attempt : nat) : reply :=
  match attempt with
  | 2%nat => Responds {| content_length := HAbsent;
                         chunks := [[Byte.x61; Byte.x62]];
                         ending := Broken (ConnectionError "Read timed out.") |}
  | _ => Raises (Timeout "Connection timed out.")
  end.

(** The read of every response fails before any byte of the body. *)
Definition stalls_before_body (attempt : nat) : reply :=
  Responds {| content_length := HAbsent; chunks := [];
              ending := Broken (ConnectionError "Read timed out.") |}.

(** C6.  Whenever a request of [download_file] is answered with a
    declared content-length above the maximum, the result is a failure,
    the files are exactly those before the call, and there is no file
    at the destination path. *)
Theorem C6_declared_size_rejected
    (download_dir : string) (max_file_size_mb : Z) (format_mb : Z -> string)
    (server : nat -> reply) (now : Z) (url0 : string)
    (filename0 : option string) (fs fs' : gmap string (list Byte.byte))
    (res : download_result) (ev : list event) (k : nat) (r : response)
    (n : Z) :
  download_file download_dir max_file_size_mb format_mb server now
    url0 filename0 fs = (res, fs', ev) ->
  In (EvRequest k) ev ->
  server k = Responds r ->
  content_length r = HInt n ->
  max_file_size max_file_size_mb < n ->
  success res = false
  /\ fs' = fs
  /\ fs' !! os_path_join download_dir (resolve_filename now url0 filename0)
     = None.
Proof.
  unfold download_file. intros H Hin Hk Hc Hn.
  eapply attempts_oversize; eassumption.
Qed.

Lemma C6_witness :
  let '(res, fs', ev) :=
    download_file "./downloads" 10 show_mb oversized 1700000000
      "https://cdn.example.com/big.mp4" None ∅ in
  success res = false /\ fs' = ∅ /\ fs' !! "./downloads/big.mp4" = None.
Proof.
  destruct (download_file "./downloads" 10 show_mb oversized 1700000000
              "https://cdn.example.com/big.mp4" None ∅)
    as [[res fs'] ev] eqn:E.
  refine (C6_declared_size_rejected "./downloads" 10 show_mb oversized
            1700000000 "https://cdn.example.com/big.mp4" None ∅ fs' res ev
            0%nat _ (11 * 1024 * 1024) E _ eq_refl eq_refl _).
  - vm_compute in E. inversion E. left. reflexivity.
  - vm_compute. reflexivity.
Defined.

(** The claim of an exponential delay after a 429, as a statement about
    the runs of [download_file]: the request of attempt number [k + 1]
    answered with 429 is followed by a sleep of
    [retry_delay * 2 ^ ((k + 1) - 1)]. *)
Definition exponential_delay_after_429 : Prop :=
  forall (download_dir : string) (max_file_size_mb : Z)
    (format_mb : Z -> string) (server : nat -> reply) (now : Z)
    (url0 : string) (filename0 : option string)
    (fs fs' : gmap string (list Byte.byte)) (res : download_result)
    (ev : list event) (k : nat) (text : string),
    download_file download_dir max_file_size_mb format_mb server now
      url0 filename0 fs = (res, fs', ev) ->
    In (EvRequest k) ev ->
    server k = Raises (HTTPError 429 text) ->
    (k + 1 < max_retries)%nat ->
    exists pre post,
      ev = (pre ++ EvRequest k
                :: EvSleep (retry_delay * 2 ^ (Z.of_nat (k + 1) - 1))
                :: post)%list.

(** C2, as stated, fails: the first 429 is followed by a sleep of 4
    seconds, not of [2 * 2 ^ 0 = 2]. *)
Lemma C2_first_delay_is_not_exponential : ~ exponential_delay_after_429.
Proof.
  intros claim.
  destruct (download_file "./downloads" 1000 show_mb always_429 1700000000
              "https://cdn.example.com/a.mp4" None ∅)
    as [[res fs'] ev] eqn:E.
  pose proof E as E'. vm_compute in E'. inversion E'; subst; clear E'.
  destruct (claim _ _ _ _ _ _ _ _ _ _ _ 0%nat _ E
              (or_introl eq_refl) eq_refl)
    as (pre & post & H); [unfold max_retries; lia|].
  vm_compute in H.
  repeat (destruct pre as [|? pre]; [discriminate H|];
          injection H as _ H).
  destruct pre; discriminate H.
Qed.

(** C2, amended.  Every request of [download_file] answered with 429 in
    an attempt before the last is followed by a sleep of
    [retry_delay * 2], whatever the attempt number. *)
Theorem C2_flat_delay_after_429
    (download_dir : string) (max_file_size_mb : Z) (format_mb : Z -> string)
    (server : nat -> reply) (now : Z) (url0 : string)
    (filename0 : option string) (fs fs' : gmap string (list Byte.byte))
    (res : download_result) (ev : list event) (k : nat) (text : string) :
  download_file download_dir max_file_size_mb format_mb server now
    url0 filename0 fs = (res, fs', ev) ->
  In (EvRequest k) ev ->
  server k = Raises (HTTPError 429 text) ->
  (k + 1 < max_retries)%nat ->
  retry_delay * 2 = 4
  /\ exists pre post,
       ev = (pre ++ EvRequest k :: EvSleep (retry_delay * 2) :: post)%list.
Proof.
  unfold download_file. intros H Hin Hk Hlt.
  split; [reflexivity|]. eapply attempts_429; eassumption.
Qed.

Lemma C2_witness :
  exists pre post,
    snd (download_file "./downloads" 1000 show_mb always_429 1700000000
           "https://cdn.example.com/a.mp4" None ∅)
    = (pre ++ EvRequest 1 :: EvSleep 4 :: post)%list.
Proof.
  destruct (download_file "./downloads" 1000 show_mb always_429 1700000000
              "https://cdn.example.com/a.mp4" None ∅)
    as [[res fs'] ev] eqn:E.
  apply (proj2 (C2_flat_delay_after_429 _ _ _ _ _ _ _ _ _ _ _ 1%nat _ E
                  ltac:(vm_compute in E; inversion E; simpl; tauto)
                  eq_refl ltac:(unfold max_retries; lia))).
Defined.

(** C1, at a failing input.  Two connection timeouts, then a response
    whose read fails after two bytes: the call fails and the two bytes
    stay in the file at the destination. *)
Theorem C1_partial_file_left_behind :
  let '(res, fs', ev) :=
    download_file "./downloads" 1000 show_mb stalls_on_last_attempt
      1700000000 "https://cdn.example.com/a.mp4" None ∅ in
  success res = false
  /\ error res = Some "连接错误: Read timed out."
  /\ fs' !! "./downloads/a.mp4" = Some [Byte.x61; Byte.x62]
  /\ ev = [EvRequest 0; EvSleep 2; EvRequest 1; EvSleep 2; EvRequest 2].
Proof. vm_compute. repeat split; reflexivity. Qed.

(** C7, at a failing input.  A first response whose read fails before
    its body leaves an empty file; the second iteration finds the file
    and reports success with size 0.  The same holds for a call that
    finds an empty file at the destination. *)
Theorem C7_success_with_empty_file :
  (let '(res, fs', ev) :=
     download_file "./downloads" 1000 show_mb stalls_before_body
       1700000000 "https://cdn.example.com/a.mp4" None ∅ in
   success res = true
   /\ size res = Some 0
   /\ file_path res = Some "./downloads/a.mp4"
   /\ fs' !! "./downloads/a.mp4" = Some []
   /\ ev = [EvRequest 0; EvSleep 2])
  /\ (let '(res, fs', ev) :=
       download_file "./downloads" 1000 show_mb always_429
         1700000000 "https://cdn.example.com/a.mp4" None
         (<["./downloads/a.mp4" := []]> ∅) in
     success res = true /\ size res = Some 0 /\ ev = []).
Proof. vm_compute. repeat split; reflexivity. Qed.

End DirectDownloaderFacts.

(** ** Bilibili resolver *)

Module BilibiliParserFacts.
Import BilibiliParser.
Local Open Scope Z_scope.

Lemma is_success_code_false (p : payload) :
  code p <> Some 1 -> is_success_code p = false.
Proof.
  unfold is_success_code. destruct (code p) as [c|]; [|reflexivity].
  intros H. destruct (Z.eqb_spec c 1); [subst; congruence | reflexivity].
Qed.

Section Exhaustion.
Variable max_retries retry_delay : Z.
Variable api : nat -> api_reply.
Variable url0 : string.

Hypothesis at_least_one_attempt : 1 <= max_retries.
Hypothesis delay_is_a_duration : 0 <= retry_delay.
Hypothesis always_failure_payload :
  forall i, (i < Z.to_nat max_retries)%nat ->
    exists p, api i = Json p /\ code p <> Some 1.

Lemma attempts_exhaust (len : nat) :
  forall start,
    (start + S len = Z.to_nat max_retries)%nat ->
    exists p ev,
      api (Z.to_nat max_retries - 1)%nat = Json p
      /\ attempts max_retries retry_delay api (seq start (S len)) url0
         = (Return (failed ("B站API错误: " ++ error_msg p) url0), ev)
      /\ requests_made ev = seq start (S len)
      /\ Forall (fun e => forall d, e = EvSleep d -> d = retry_delay) ev.
Proof.
  induction len as [|len IH]; intros start Hs.
  - destruct (always_failure_payload start) as (p & Hp & Hc); [lia|].
    exists p, [EvRequest start].
    replace (Z.to_nat max_retries - 1)%nat with start by lia.
    split; [assumption|]. simpl. unfold try_once. rewrite Hp.
    rewrite (is_success_code_false _ Hc).
    replace (Z.of_nat start =? max_retries - 1) with true
      by (symmetry; apply Z.eqb_eq; lia).
    repeat split. constructor; [discriminate | constructor].
  - destruct (always_failure_payload start) as (p0 & Hp0 & Hc0); [lia|].
    destruct (IH (S start)) as (p & ev & Hp & Ha & Hr & Hsl); [lia|].
    exists p, ([EvRequest start; EvSleep retry_delay] ++ ev)%list.
    split; [assumption|].
    change (seq start (S (S len))) with (start :: seq (S start) (S len)).
    cbn [attempts]. unfold try_once at 1. rewrite Hp0.
    rewrite (is_success_code_false _ Hc0).
    replace (Z.of_nat start =? max_retries - 1) with false
      by (symmetry; apply Z.eqb_neq; lia).
    replace (retry_delay <? 0) with false
      by (symmetry; apply Z.ltb_ge; lia).
    rewrite Ha. split; [reflexivity|]. split.
    + cbn [app requests_made flat_map]. simpl. f_equal. exact Hr.
    + constructor; [discriminate|].
      constructor; [intros d Hd; inversion Hd; reflexivity | exact Hsl].
Qed.

End Exhaustion.

(** C5.  When every attempt is answered with a decoded body whose code
    is not the success code, [_call_bilibili_api] makes the requests of
    attempts 0 to [max_retries - 1], that is, exactly [max_retries]
    requests, sleeps [retry_delay] between them and returns the failure
    whose error is the remote message of the last body behind the
    prefix of the source.  The settings are a count of at least one
    attempt and a delay that is not negative. *)
Theorem C5_failure_payload_exhausts_attempts
    (max_retries retry_delay : Z) (api : nat -> api_reply) (url0 : string) :
  1 <= max_retries ->
  0 <= retry_delay ->
  (forall i, (i < Z.to_nat max_retries)%nat ->
     exists p, api i = Json p /\ code p <> Some 1) ->
  exists p ev,
    api (Z.to_nat max_retries - 1)%nat = Json p
    /\ _call_bilibili_api max_retries retry_delay api url0
       = (Return (failed ("B站API错误: " ++ error_msg p) url0), ev)
    /\ requests_made ev = seq 0 (Z.to_nat max_retries)
    /\ Z.of_nat (length (requests_made ev)) = max_retries
    /\ Forall (fun e => forall d, e = EvSleep d -> d = retry_delay) ev
    /\ (forall m, msg p = Some m ->
          error (failed ("B站API错误: " ++ error_msg p) url0)
          = Some ("B站API错误: " ++ m)).
Proof.
  intros Hmax Hdelay Hall. unfold _call_bilibili_api.
  assert (El : Z.to_nat max_retries = S (Z.to_nat max_retries - 1)) by lia.
  destruct (attempts_exhaust max_retries retry_delay api url0
              Hmax Hdelay Hall (Z.to_nat max_retries - 1) 0%nat)
    as (p & ev & Hp & Ha & Hr & Hsl); [lia|].
  rewrite <- El in Ha, Hr.
  exists p, ev.
  split; [exact Hp|]. split; [exact Ha|]. split; [exact Hr|].
  split; [rewrite Hr, length_seq; lia|]. split; [exact Hsl|].
  intros m Hm. unfold error_msg. rewrite Hm. reflexivity.
Qed.

Definition video_not_found (attempt : nat) : api_reply :=
  Json {| code := Some (-1); msg := Some "video not found" |}.

Lemma C5_witness :
  exists ev,
    _call_bilibili_api 3 2 video_not_found "https://b23.tv/abc"
    = (Return (failed "B站API错误: video not found" "https://b23.tv/abc"), ev)
    /\ requests_made ev = [0; 1; 2]%nat.
Proof.
  destruct (C5_failure_payload_exhausts_attempts 3 2 video_not_found
              "https://b23.tv/abc")
    as (p & ev & Hp & Ha & Hr & _).
  - lia.
  - lia.
  - intros i _. eexists. split; [reflexivity | discriminate].
  - inversion Hp; subst p. exists ev. split; [exact Ha | exact Hr].
Defined.

End BilibiliParserFacts.

(** ** Workflow controller *)

Module WorkflowControllerFacts.
Import PyStr WorkflowController.

(** C8.  A failure of classification, download, audio extraction or
    transcription ends the run with the dict of that stage, and no
    later stage runs.  A failure of text processing does not: the
    transcript stands in for the formatted text, the result is saved
    and it reports success. *)
Theorem C8_only_text_processing_failure_is_survived
    (dec : N -> bool)
    (download_video : pystr -> string -> download_result)
    (extract_audio_from_video : string -> audio_result)
    (transcribe_audio : string -> transcription_result)
    (process_text : string -> string -> text_result)
    (written_files : final_result -> list (string * string))
    (text : pystr) :
  let run := process_video_link dec download_video
               extract_audio_from_video transcribe_audio process_text
               written_files text in
  let c := LinkClassifier.classify_link dec text in
  (LinkClassifier.success c = false ->
     run = (OfClassification c, [Classify])
     /\ output_success (fst run) = false)
  /\ (forall p,
        LinkClassifier.success c = true ->
        LinkClassifier.primary_link c = Some p ->
        let d := download_video (LinkClassifier.url p)
                   (LinkClassifier.type_ p) in
        (d_success d = false ->
           run = (OfDownload d, [Classify; Download])
           /\ output_success (fst run) = false)
        /\ (forall video,
              d_success d = true -> d_file_path d = Some video ->
              let a := extract_audio_from_video video in
              (a_success a = false ->
                 run = (OfAudio a, [Classify; Download; ExtractAudio])
                 /\ output_success (fst run) = false)
              /\ (forall audio,
                    a_success a = true -> a_audio_path a = Some audio ->
                    let t := transcribe_audio audio in
                    (t_success t = false ->
                       run = (OfTranscription t,
                              [Classify; Download; ExtractAudio; Transcribe])
                       /\ output_success (fst run) = false)
                    /\ (forall raw,
                          t_success t = true -> t_transcript t = Some raw ->
                          x_success (process_text raw "format") = false ->
                          exists r,
                            run = (Final (_save_transcription_result
                                            written_files r),
                                   [Classify; Download; ExtractAudio;
                                    Transcribe; ProcessText; Persist])
                            /\ success r = true
                            /\ transcript r = raw
                            /\ formatted_text r = raw
                            /\ text_processing_success r = false
                            /\ success (_save_transcription_result
                                          written_files r) = true
                            /\ formatted_text (_save_transcription_result
                                                 written_files r) = raw
                            /\ output_success (fst run) = true)))).
Proof.
  intros run c. subst run c. unfold process_video_link. cbv zeta.
  split.
  { intros Hc. rewrite Hc. simpl. auto. }
  intros p Hc Hp. rewrite Hc, Hp. cbn [negb].
  split.
  { intros Hd. rewrite Hd. simpl. auto. }
  intros video Hd Hv. rewrite Hd, Hv. cbn [negb].
  split.
  { intros Ha. rewrite Ha. simpl. auto. }
  intros audio Ha Hap. rewrite Ha, Hap. cbn [negb].
  split.
  { intros Ht. rewrite Ht. simpl. auto. }
  intros raw Ht Hr Hx. rewrite Ht, Hr. cbn [negb]. rewrite Hx.
  eexists. split; [reflexivity|]. simpl. repeat split.
Qed.

(** Stages that succeed, and a text processor that fails. *)
Definition demo_download (link : pystr) (link_type : string)
    : download_result :=
  {| d_success := true; d_error := None;
     d_file_path := Some "./downloads/clip.mp4";
     d_title := Some "clip.mp4"; d_duration := None;
     d_size := Some "1024"; d_platform := Some link_type |}.

Definition demo_audio (video : string) : audio_result :=
  {| a_success := true; a_error := None;
     a_audio_path := Some "./temp/clip_audio.wav" |}.

Definition demo_transcribe (audio : string) : transcription_result :=
  {| t_success := true; t_error := None;
     t_transcript := Some "hello world";
     t_transcript_with_timestamps := None |}.

Definition demo_text_failure (text task : string) : text_result :=
  {| x_success := false; x_error := Some "GPT API timeout";
     x_formatted_text := None |}.

Definition demo_written (r : final_result) : list (string * string) :=
  [("result_file", "output/processed/transcription_result.json")].

Lemma C8_witness :
  exists r,
    process_video_link LinkClassifier.ascii_decimal demo_download demo_audio
      demo_transcribe demo_text_failure demo_written
      (u "watch https://cdn.example.com/clip.mp4")
    = (Final r, [Classify; Download; ExtractAudio; Transcribe;
                 ProcessText; Persist])
    /\ success r = true /\ formatted_text r = "hello world".
Proof.
  destruct (C8_only_text_processing_failure_is_survived
              LinkClassifier.ascii_decimal demo_download demo_audio
              demo_transcribe demo_text_failure demo_written
              (u "watch https://cdn.example.com/clip.mp4")) as [_ H].
  specialize (H (LinkClassifier.classify_one LinkClassifier.ascii_decimal
                   (u "https://cdn.example.com/clip.mp4"))).
  destruct H as [_ H]; [vm_compute; reflexivity | vm_compute; reflexivity |].
  destruct (H "./downloads/clip.mp4" eq_refl eq_refl) as [_ H1].
  destruct (H1 "./temp/clip_audio.wav" eq_refl eq_refl) as [_ H2].
  destruct (H2 "hello world" eq_refl eq_refl eq_refl)
    as (r & Hrun & _ & _ & _ & _ & Hs & Hf & _).
  eexists. split; [exact Hrun | split; [exact Hs | exact Hf]].
Defined.

End WorkflowControllerFacts.

(** * Further properties of the code *)

(** ** Direct downloader: what a call does to the files and the network *)

Module DirectDownloaderRuns.
Import DirectDownloader.
Local Open Scope Z_scope.

Definition requests_of (ev : list event) : list nat :=
  flat_map (fun e => match e with EvRequest a => [a] | EvSleep _ => [] end) ev.

Definition sleeps_of (ev : list event) : list Z :=
  flat_map (fun e => match e with EvSleep d => [d] | EvRequest _ => [] end) ev.

Definition sleep_total (ev : list event) : Z :=
  fold_right Z.add 0 (sleeps_of ev).

Lemma requests_of_app (a b : list event) :
  requests_of (a ++ b) = (requests_of a ++ requests_of b)%list.
Proof. unfold requests_of. apply flat_map_app. Qed.

Lemma sleep_total_app (a b : list event) :
  sleep_total (a ++ b) = sleep_total a + sleep_total b.
Proof.
  unfold sleep_total, sleeps_of. rewrite flat_map_app.
  induction (flat_map _ a) as [|x l IH]; simpl; lia.
Qed.

(** The exception that ends the attempt answered with a reply, if any:
    raised by the request, or while the body is read. *)
Definition cause_of (rp : reply) : option exn :=
  match rp with
  | Raises e => Some e
  | Responds r =>
      match ending r with
      | Broken e => Some e
      | Complete => None
      end
  end.

(** The failures after which an attempt is repeated, with the seconds
    slept first. *)
Definition delay_for (e : exn) : option Z :=
  match e with
  | HTTPError status_code _ =>
      if status_code =? 403 then Some retry_delay
      else if status_code =? 404 then None
      else if status_code =? 429 then Some (retry_delay * 2)
      else None
  | Timeout _ | ConnectionError _ => Some retry_delay
  | OtherError _ => None
  end.

Section Runs.
Variable download_dir : string.
Variable max_file_size_mb : Z.
Variable format_mb : Z -> string.
Variable server : nat -> reply.
Variable url0 name : string.

Abbreviation path := (os_path_join download_dir name).
Abbreviation try_once' :=
  (try_once download_dir max_file_size_mb format_mb server).
Abbreviation attempts' :=
  (attempts download_dir max_file_size_mb format_mb server).

(** The chunk loop appends the chunks to the destination and touches no
    other file; when it ends without the size failure the running total
    is within the limit. *)
Lemma write_chunks_content (body : list (list Byte.byte)) :
  forall downloaded fs fs1 content,
    fs !! path = Some content ->
    write_chunks max_file_size_mb format_mb path url0 body downloaded fs
    = (None, fs1) ->
    fs1 !! path = Some (content ++ concat body)%list
    /\ (forall p, p <> path -> fs1 !! p = fs !! p)
    /\ (downloaded <= max_file_size max_file_size_mb ->
        downloaded + Z.of_nat (length (concat body))
        <= max_file_size max_file_size_mb).
Proof.
  induction body as [|chunk rest IH]; intros downloaded fs fs1 content Hc H;
    simpl in H.
  - inversion H; subst. simpl. rewrite app_nil_r.
    split; [assumption|]. split; [reflexivity | lia].
  - destruct chunk as [|b chunk].
    + simpl. eapply IH; eassumption.
    + destruct (Z.ltb_spec (max_file_size max_file_size_mb)
                  (downloaded + Z.of_nat (length (b :: chunk))))
        as [Hlt|Hle]; [discriminate|].
      unfold get_content in H. rewrite Hc in H. cbn [default] in H.
      eapply IH in H; [|apply lookup_insert_eq].
      destruct H as (H1 & H2 & H3).
      split; [|split].
      * rewrite H1. cbn [concat]. now rewrite <- app_assoc.
      * intros p Hp. rewrite H2 by assumption.
        apply lookup_insert_ne. congruence.
      * intros _. cbn [concat]. rewrite length_app.
        rewrite Nat2Z.inj_add. specialize (H3 Hle). lia.
Qed.

(** The chunk loop fails, and removes the destination, when the body is
    longer than the limit allows. *)
Lemma write_chunks_over (body : list (list Byte.byte)) :
  forall downloaded fs,
    downloaded <= max_file_size max_file_size_mb ->
    max_file_size max_file_size_mb
    < downloaded + Z.of_nat (length (concat body)) ->
    exists res fs1,
      write_chunks max_file_size_mb format_mb path url0 body downloaded fs
      = (Some res, fs1)
      /\ success res = false /\ fs1 !! path = None
      /\ (forall p, p <> path -> fs1 !! p = fs !! p).
Proof.
  induction body as [|chunk rest IH]; intros downloaded fs Hd Hover;
    simpl in *.
  - lia.
  - destruct chunk as [|b chunk].
    + simpl in Hover. apply IH; assumption.
    + rewrite length_app, Nat2Z.inj_add in Hover.
      destruct (Z.ltb_spec (max_file_size max_file_size_mb)
                  (downloaded + Z.of_nat (length (b :: chunk)))).
      * eexists _, _. split; [reflexivity|]. split; [reflexivity|].
        split; [apply lookup_delete_eq|].
        intros p Hp. rewrite lookup_delete_ne by congruence.
        apply lookup_insert_ne. congruence.
      * destruct (IH (downloaded + Z.of_nat (length (b :: chunk)))
                    (<[path := (get_content fs path ++ b :: chunk)%list]> fs))
          as (res & fs1 & Hw & Hs & Hn & Hframe); [assumption | lia |].
        exists res, fs1. split; [exact Hw|]. split; [exact Hs|].
        split; [exact Hn|].
        intros p Hp. rewrite Hframe by assumption.
        apply lookup_insert_ne. congruence.
Qed.

(** When the loop fails the destination is gone, whatever was there. *)
Lemma write_chunks_abort (body : list (list Byte.byte)) :
  forall downloaded fs res fs1,
    write_chunks max_file_size_mb format_mb path url0 body downloaded fs
    = (Some res, fs1) ->
    success res = false /\ fs1 !! path = None
    /\ (forall p, p <> path -> fs1 !! p = fs !! p).
Proof.
  induction body as [|chunk rest IH]; intros downloaded fs res fs1 H;
    simpl in H; [discriminate|].
  destruct chunk as [|b chunk]; [eauto|].
  destruct (_ <? _).
  - inversion H; subst. split; [reflexivity|].
    split; [apply lookup_delete_eq|].
    intros p Hp. rewrite lookup_delete_ne by congruence.
    apply lookup_insert_ne. congruence.
  - apply IH in H. destruct H as (Hs & Hn & Hframe).
    split; [exact Hs|]. split; [exact Hn|].
    intros p Hp. rewrite Hframe by assumption.
    apply lookup_insert_ne. congruence.
Qed.

Lemma handle_shape (attempt : nat) (e : exn) (st : step) (ev : list event) :
  handle attempt url0 e = (st, ev) ->
  (exists r, st = Return r /\ success r = false /\ ev = [])
  \/ (st = Continue /\ (attempt + 1 < max_retries)%nat
      /\ (ev = [EvSleep retry_delay] \/ ev = [EvSleep (retry_delay * 2)])).
Proof.
  unfold handle. intros H.
  destruct e as [code text|text|text|text];
    repeat match type of H with
           | context [if (?a <? ?b)%nat then _ else _] =>
               destruct (Nat.ltb_spec a b)
           | context [if ?b then _ else _] => destruct b
           end;
    inversion H; subst;
    try (left; eexists; repeat split; reflexivity);
    right; (split; [reflexivity|]); unfold max_retries in *;
    (split; [lia|]); auto.
Qed.


Lemma handle_cases (attempt : nat) (e : exn) (st : step) (ev : list event) :
  handle attempt url0 e = (st, ev) ->
  (exists r, st = Return r /\ success r = false /\ ev = []
             /\ (delay_for e = None \/ (max_retries <= attempt + 1)%nat))
  \/ (st = Continue /\ (attempt + 1 < max_retries)%nat
      /\ exists d, delay_for e = Some d /\ ev = [EvSleep d]).
Proof.
  unfold handle, delay_for. intros H.
  destruct e as [code text|text|text|text];
    repeat match type of H with
           | context [if (?a <? ?b)%nat then _ else _] =>
               destruct (Nat.ltb_spec a b)
           | context [if ?b then _ else _] => destruct b
           end;
    inversion H; subst; unfold max_retries in *;
    try (right; split; [reflexivity|]; split; [lia|];
         eexists; split; reflexivity);
    left; eexists; (split; [reflexivity|]); (split; [reflexivity|]);
    (split; [reflexivity|]); first [left; reflexivity | right; lia].
Qed.

(** One iteration, summed up: it touches no other file; a success has its
    file in place; and it either answers from the existing file without a
    request, or makes one request and returns, or makes one request,
    sleeps and goes on. *)
Lemma try_once_summary (attempt : nat) (fs fs1 : gmap string (list Byte.byte))
    (st : step) (ev : list event) :
  try_once' attempt url0 name fs = (st, fs1, ev) ->
  (forall p, p <> path -> fs1 !! p = fs !! p)
  /\ (forall r, st = Return r -> success r = true ->
        exists content,
          fs1 !! path = Some content /\ file_path r = Some path
          /\ filename r = Some name
          /\ size r = Some (Z.of_nat (length content)))
  /\ ((exists content, fs !! path = Some content /\ fs1 = fs /\ ev = []
         /\ st = Return (succeeded path name (Z.of_nat (length content))
                           "文件已存在"))
      \/ (fs !! path = None /\ ev = [EvRequest attempt]
          /\ exists r, st = Return r)
      \/ (fs !! path = None /\ st = Continue
          /\ (attempt + 1 < max_retries)%nat
          /\ (exists e d, cause_of (server attempt) = Some e
                          /\ delay_for e = Some d
                          /\ ev = [EvRequest attempt; EvSleep d])
          /\ (fs1 = fs \/ fs1 !! path <> None))).
Proof.
  unfold try_once. intros H.
  destruct (fs !! path) as [content|] eqn:Efs.
  { inversion H; subst. split; [reflexivity|]. split.
    - intros r Hr _. inversion Hr; subst. exists content. auto.
    - left. exists content. auto. }
  destruct (server attempt) as [e|r] eqn:Es.
  { destruct (handle attempt url0 e) as [st0 ev0] eqn:Eh.
    inversion H; subst. split; [reflexivity|].
    destruct (handle_cases _ _ _ _ Eh)
      as [(r & -> & Hr & -> & _) | (-> & Hlt & d & Hd & ->)].
    - split; [intros r0 Hr0; inversion Hr0; subst; congruence|].
      right. left. eauto.
    - split; [discriminate|]. right. right.
      repeat split; try assumption; [|left; reflexivity].
      exists e, d. auto. }
  unfold receive in H.
  assert (Hstream : forall st0 fs0 ev0,
            stream max_file_size_mb format_mb attempt url0 name path r fs
            = (st0, fs0, ev0) ->
            (st, fs1, ev) = (st0, fs0, EvRequest attempt :: ev0) ->
            (forall p, p <> path -> fs1 !! p = fs !! p)
            /\ (forall r0, st = Return r0 -> success r0 = true ->
                  exists content,
                    fs1 !! path = Some content /\ file_path r0 = Some path
                    /\ filename r0 = Some name
                    /\ size r0 = Some (Z.of_nat (length content)))
            /\ ((fs !! path = None /\ ev = [EvRequest attempt]
                 /\ exists r0, st = Return r0)
                \/ (fs !! path = None /\ st = Continue
                    /\ (attempt + 1 < max_retries)%nat
                    /\ (exists e d, cause_of (Responds r) = Some e
                                    /\ delay_for e = Some d
                                    /\ ev = [EvRequest attempt; EvSleep d])
                    /\ (fs1 = fs \/ fs1 !! path <> None)))).
  { intros st0 fs0 ev0 Hst Heq. inversion Heq; subst; clear Heq.
    unfold stream in Hst.
    destruct (write_chunks max_file_size_mb format_mb path url0 (chunks r) 0
                (<[path:=[]]> fs)) as [[too_large|] fs2] eqn:Ew.
    - inversion Hst; subst.
      destruct (write_chunks_abort _ _ _ _ _ Ew) as (Hs & _ & Hframe).
      split.
      { intros p Hp. rewrite Hframe by assumption.
        apply lookup_insert_ne. congruence. }
      split; [intros r0 Hr0; inversion Hr0; subst; congruence|].
      left. eauto.
    - destruct (write_chunks_content _ _ _ _ [] (lookup_insert_eq _ _ _) Ew)
        as (Hcontent & Hframe & _).
      assert (Hframe' : forall p, p <> path -> fs2 !! p = fs !! p).
      { intros p Hp. rewrite Hframe by assumption.
        apply lookup_insert_ne. congruence. }
      destruct (ending r) as [|e] eqn:Ee.
      + rewrite Hcontent in Hst.
        destruct (Z.of_nat (length ([] ++ concat (chunks r))%list) =? 0);
          inversion Hst; subst.
        * split.
          { intros p Hp. rewrite lookup_delete_ne by congruence. auto. }
          split; [intros r0 Hr0; inversion Hr0; subst; discriminate|].
          left. eauto.
        * split; [exact Hframe'|]. split.
          { intros r0 Hr0 _. inversion Hr0; subst.
            eexists. split; [exact Hcontent|]. auto. }
          left. eauto.
      + destruct (handle attempt url0 e) as [st1 ev1] eqn:Eh.
        inversion Hst; subst. split; [exact Hframe'|].
        destruct (handle_cases _ _ _ _ Eh)
          as [(r0 & -> & Hr & -> & _) | (-> & Hlt & d & Hd & ->)].
        * split; [intros r1 Hr1; inversion Hr1; subst; congruence|].
          left. eauto.
        * split; [discriminate|]. right.
          repeat split; try assumption.
          -- exists e, d. simpl. rewrite Ee. auto.
          -- right. rewrite Hcontent. discriminate. }
  destruct (content_length r) as [|n|text].
  - destruct (stream _ _ _ _ _ _ _ _) as [[st0 fs0] ev0] eqn:Est.
    destruct (Hstream _ _ _ eq_refl (eq_sym H)) as (H1 & H2 & H3).
    split; [exact H1|]. split; [exact H2|]. right.
      rewrite Efs in H3. exact H3.
  - destruct (_ <? n).
    + inversion H; subst. split; [reflexivity|].
      split; [intros r0 Hr0; inversion Hr0; subst; discriminate|].
      right. left. eauto.
    + destruct (stream _ _ _ _ _ _ _ _) as [[st0 fs0] ev0] eqn:Est.
      destruct (Hstream _ _ _ eq_refl (eq_sym H)) as (H1 & H2 & H3).
      split; [exact H1|]. split; [exact H2|]. right.
      rewrite Efs in H3. exact H3.
  - cbn in H. inversion H; subst. split; [reflexivity|].
    split; [intros r0 Hr0; inversion Hr0; subst; discriminate|].
    right. left. eauto.
Qed.


Lemma attempts_invariants (todo : list nat) :
  forall fs res fs' ev,
    attempts' todo url0 name fs = (res, fs', ev) ->
    (forall p, p <> path -> fs' !! p = fs !! p)
    /\ (success res = true ->
        exists content,
          fs' !! path = Some content /\ file_path res = Some path
          /\ filename res = Some name
          /\ size res = Some (Z.of_nat (length content)))
    /\ (exists rest, todo = (requests_of ev ++ rest)%list)
    /\ 0 <= sleep_total ev
         <= 4 * Z.of_nat (length (List.filter
                                    (fun a => (a + 1 <? max_retries)%nat)
                                    (requests_of ev))).
Proof.
  induction todo as [|a todo IH]; intros fs res fs' ev H; simpl in H.
  - inversion H; subst. split; [reflexivity|]. split; [discriminate|].
    split; [exists []; reflexivity | cbn; lia].
  - destruct (try_once' a url0 name fs) as [[st fs1] ev1] eqn:Et.
    destruct (try_once_summary _ _ _ _ _ Et) as (Hframe & Hsucc & Hshape).
    destruct st as [r|].
    + inversion H; subst. split; [exact Hframe|].
      split; [intros Hs; exact (Hsucc _ eq_refl Hs)|].
      destruct Hshape as [(c & _ & _ & -> & _) | [(_ & -> & _) | (_ & Hc & _)]];
        [| |discriminate].
      * split; [exists (a :: todo); reflexivity | cbn; lia].
      * split; [exists todo; reflexivity|].
        change (sleep_total [EvRequest a]) with 0.
        change (requests_of [EvRequest a]) with [a]. lia.
    + destruct (attempts' todo url0 name fs1) as [[r2 fs2] ev2] eqn:Ea.
      inversion H; subst.
      destruct (IH _ _ _ _ Ea) as (Hframe2 & Hsucc2 & (rest & Hrest) & Hsl).
      destruct Hshape as [(c & _ & _ & _ & Hc) | [(_ & _ & r & Hc)
                          | (_ & _ & Hlt & (e & d & _ & Hd & ->) & _)]];
        [discriminate | discriminate |].
      split; [intros p Hp; rewrite Hframe2, Hframe by assumption; reflexivity|].
      split; [exact Hsucc2|].
      split; [exists rest; rewrite requests_of_app, Hrest; reflexivity|].
      assert (Hd' : d = 2 \/ d = 4).
      { destruct e as [code ?|?|?|?]; cbn in Hd;
          repeat match type of Hd with
                 | context [if ?b then _ else _] => destruct b
                 end; inversion Hd; auto. }
      rewrite sleep_total_app, requests_of_app.
      change (sleep_total [EvRequest a; EvSleep d]) with (d + 0).
      change (requests_of [EvRequest a; EvSleep d]) with [a].
      cbn [app List.filter]. apply Nat.ltb_lt in Hlt. rewrite Hlt.
      cbn [length]. lia.
Qed.

(** A request is only ever made with the files as they were at the start
    of the call. *)
Lemma reached (todo : list nat) :
  forall fs res fs' ev k,
    attempts' todo url0 name fs = (res, fs', ev) ->
    In (EvRequest k) ev ->
    fs !! path = None
    /\ exists st fs1 evs pre post,
         try_once' k url0 name fs = (st, fs1, EvRequest k :: evs)
         /\ ev = (pre ++ EvRequest k :: evs ++ post)%list
         /\ (forall r, st = Return r -> r = res /\ fs1 = fs' /\ post = []).
Proof.
  induction todo as [|a todo IH]; intros fs res fs' ev k H Hin; simpl in H.
  - inversion H; subst. destruct Hin.
  - destruct (try_once' a url0 name fs) as [[st fs1] ev1] eqn:Et.
    destruct (try_once_summary _ _ _ _ _ Et) as (_ & _ & Hshape).
    destruct Hshape as [(c & Hc & -> & -> & ->)
                       | [(Hn & -> & r & ->)
                         | (Hn & -> & Hlt & (e & d & _ & _ & ->) & Hfs1)]].
    + inversion H; subst. destruct Hin.
    + inversion H; subst. destruct Hin as [Heq | []]. inversion Heq; subst.
      split; [exact Hn|].
      exists (Return res), fs', [], [], []. split; [exact Et|].
      split; [reflexivity|]. intros r0 Hr0. inversion Hr0; auto.
    + destruct (attempts' todo url0 name fs1) as [[r2 fs2] ev2] eqn:Ea.
      inversion H; subst. split; [exact Hn|].
      destruct Hin as [Heq | [Heq | Hin]]; [|discriminate|].
      * inversion Heq; subst.
        exists Continue, fs1, [EvSleep d], [], ev2.
        split; [exact Et|]. split; [reflexivity | discriminate].
      * destruct Hfs1 as [-> | Hex].
        -- destruct (IH _ _ _ _ _ Ea Hin)
             as (_ & st & fs3 & evs & pre & post & Ht & -> & Hret).
           exists st, fs3, evs, (EvRequest a :: EvSleep d :: pre), post.
           split; [exact Ht|]. split; [reflexivity | exact Hret].
        -- pose proof (DirectDownloaderFacts.attempts_existing download_dir
                         max_file_size_mb format_mb server todo url0 name
                         fs1 Hex) as Hnil.
           rewrite Ea in Hnil. simpl in Hnil. subst ev2. destruct Hin.
Qed.

(** Every sleep directly follows a request, and that request failed in
    one of the ways that are retried. *)
Lemma attempts_sleep_cause (todo : list nat) :
  forall fs res fs' ev pre d post,
    attempts' todo url0 name fs = (res, fs', ev) ->
    ev = (pre ++ EvSleep d :: post)%list ->
    exists pre' k e,
      pre = (pre' ++ [EvRequest k])%list
      /\ cause_of (server k) = Some e /\ delay_for e = Some d.
Proof.
  induction todo as [|a todo IH]; intros fs res fs' ev pre d post H Hev;
    subst ev; simpl in H.
  - inversion H as [[Hr Hf Hev]]. destruct pre; discriminate.
  - destruct (try_once' a url0 name fs) as [[st fs1] ev1] eqn:Et.
    destruct (try_once_summary _ _ _ _ _ Et) as (_ & _ & Hshape).
    destruct Hshape as [(c & Hc & -> & -> & ->)
                       | [(Hn & -> & r & ->)
                         | (Hn & -> & Hlt & (e & d0 & He & Hd & ->) & Hfs1)]].
    + inversion H as [[Hr Hf Hev]]. destruct pre; discriminate.
    + inversion H as [[Hr Hf Hev]]. destruct pre as [|? [|? ?]]; discriminate.
    + destruct (attempts' todo url0 name fs1) as [[r2 fs2] ev2] eqn:Ea.
      inversion H as [[Hr Hf Hev]]. clear H.
      destruct pre as [|x pre]; [discriminate|].
      inversion Hev as [[Hx Hrest]]. subst x.
      destruct pre as [|y pre].
      * inversion Hrest; subst. exists [], a, e. auto.
      * inversion Hrest as [[Hy Hrest']]. subst y.
        destruct (IH _ _ _ _ _ _ _ Ea Hrest') as (pre' & k & e' & -> & Hk).
        exists (EvRequest a :: EvSleep d0 :: pre'), k, e'. auto.
Qed.


(** The chunk loop ends without the size failure when the body is within
    the limit. *)
Lemma write_chunks_within (body : list (list Byte.byte)) :
  forall downloaded fs,
    downloaded + Z.of_nat (length (concat body))
    <= max_file_size max_file_size_mb ->
    exists fs1,
      write_chunks max_file_size_mb format_mb path url0 body downloaded fs
      = (None, fs1).
Proof.
  induction body as [|chunk rest IH]; intros downloaded fs Hle; simpl.
  - eauto.
  - destruct chunk as [|b chunk]; [apply IH; exact Hle|].
    cbn [concat] in Hle. rewrite length_app, Nat2Z.inj_add in Hle.
    destruct (Z.ltb_spec (max_file_size max_file_size_mb)
                (downloaded + Z.of_nat (length (b :: chunk)))); [lia|].
    apply IH. lia.
Qed.

End Runs.

(** X1.  A call of [download_file] that reports success leaves a file at
    the path it returns, and the size it returns is the length of that
    file. *)
Theorem success_has_its_file
    (download_dir : string) (max_file_size_mb : Z) (format_mb : Z -> string)
    (server : nat -> reply) (now : Z) (url0 : string)
    (filename0 : option string) (fs fs' : gmap string (list Byte.byte))
    (res : download_result) (ev : list event) :
  download_file download_dir max_file_size_mb format_mb server now
    url0 filename0 fs = (res, fs', ev) ->
  success res = true ->
  exists content,
    fs' !! os_path_join download_dir (resolve_filename now url0 filename0)
    = Some content
    /\ file_path res
       = Some (os_path_join download_dir
                 (resolve_filename now url0 filename0))
    /\ filename res = Some (resolve_filename now url0 filename0)
    /\ size res = Some (Z.of_nat (length content)).
Proof.
  unfold download_file. intros H Hs.
  destruct (attempts_invariants _ _ _ _ _ _ _ _ _ _ _ H) as (_ & Hsucc & _).
  exact (Hsucc Hs).
Qed.

(** X2.  [download_file] changes no file other than the destination. *)
Theorem only_destination_is_touched
    (download_dir : string) (max_file_size_mb : Z) (format_mb : Z -> string)
    (server : nat -> reply) (now : Z) (url0 : string)
    (filename0 : option string) (fs fs' : gmap string (list Byte.byte))
    (res : download_result) (ev : list event) (p : string) :
  download_file download_dir max_file_size_mb format_mb server now
    url0 filename0 fs = (res, fs', ev) ->
  p <> os_path_join download_dir (resolve_filename now url0 filename0) ->
  fs' !! p = fs !! p.
Proof.
  unfold download_file. intros H Hp.
  destruct (attempts_invariants _ _ _ _ _ _ _ _ _ _ _ H) as (Hframe & _).
  exact (Hframe _ Hp).
Qed.

(** X3.  A call makes at most three requests, for the attempts 0, 1, 2 in
    this order, and sleeps at most 8 seconds in all. *)
Theorem effort_is_bounded
    (download_dir : string) (max_file_size_mb : Z) (format_mb : Z -> string)
    (server : nat -> reply) (now : Z) (url0 : string)
    (filename0 : option string) (fs fs' : gmap string (list Byte.byte))
    (res : download_result) (ev : list event) :
  download_file download_dir max_file_size_mb format_mb server now
    url0 filename0 fs = (res, fs', ev) ->
  requests_of ev = seq 0 (length (requests_of ev))
  /\ (length (requests_of ev) <= 3)%nat
  /\ 0 <= sleep_total ev <= 8.
Proof.
  unfold download_file. intros H.
  destruct (attempts_invariants _ _ _ _ _ _ _ _ _ _ _ H)
    as (_ & _ & (rest & Hrest) & Hsl).
  unfold max_retries in *. cbn [seq] in Hrest.
  destruct (requests_of ev) as [|a [|b [|c [|d l]]]];
    cbn [app] in Hrest; inversion Hrest; subst;
    cbn in Hsl; cbn; repeat split; try lia.
Qed.

(** X4.  When the body of a response is longer than the maximum file
    size, whatever its content-length says, the call fails and no file is
    left at the destination. *)
Theorem body_over_limit_leaves_no_file
    (download_dir : string) (max_file_size_mb : Z) (format_mb : Z -> string)
    (server : nat -> reply) (now : Z) (url0 : string)
    (filename0 : option string) (fs fs' : gmap string (list Byte.byte))
    (res : download_result) (ev : list event) (k : nat) (r : response) :
  0 <= max_file_size_mb ->
  download_file download_dir max_file_size_mb format_mb server now
    url0 filename0 fs = (res, fs', ev) ->
  In (EvRequest k) ev ->
  server k = Responds r ->
  max_file_size max_file_size_mb < Z.of_nat (length (concat (chunks r))) ->
  success res = false
  /\ fs' !! os_path_join download_dir (resolve_filename now url0 filename0)
     = None.
Proof.
  unfold download_file. intros Hmb H Hin Hk Hover.
  destruct (reached _ _ _ _ _ _ _ _ _ _ _ _ H Hin)
    as (Hn & st & fs1 & evs & pre & post & Ht & _ & Hret).
  unfold try_once in Ht. rewrite Hn, Hk in Ht. unfold receive in Ht.
  set (name := resolve_filename now url0 filename0) in *.
  assert (Hstream : forall st0 fs0 ev0,
            stream max_file_size_mb format_mb k url0 name
              (os_path_join download_dir name) r fs = (st0, fs0, ev0) ->
            exists r0, st0 = Return r0 /\ success r0 = false
                       /\ fs0 !! os_path_join download_dir name = None).
  { intros st0 fs0 ev0 Hst. unfold stream in Hst.
    destruct (write_chunks_over download_dir max_file_size_mb format_mb
                url0 name (chunks r) 0
                (<[os_path_join download_dir name := []]> fs))
      as (r0 & fs2 & Hw & Hs & Hnone & _).
    { unfold max_file_size. lia. }
    { lia. }
    rewrite Hw in Hst. inversion Hst; subst. eauto. }
  destruct (content_length r) as [|n|text].
  - destruct (stream _ _ _ _ _ _ _ _) as [[st0 fs0] ev0] eqn:Est.
    destruct (Hstream _ _ _ eq_refl) as (r0 & -> & Hs & Hnone).
    inversion Ht; subst.
    destruct (Hret _ eq_refl) as (-> & -> & _). auto.
  - destruct (_ <? n).
    + inversion Ht; subst. destruct (Hret _ eq_refl) as (<- & <- & _). auto.
    + destruct (stream _ _ _ _ _ _ _ _) as [[st0 fs0] ev0] eqn:Est.
      destruct (Hstream _ _ _ eq_refl) as (r0 & -> & Hs & Hnone).
      inversion Ht; subst.
      destruct (Hret _ eq_refl) as (-> & -> & _). auto.
  - cbn in Ht. inversion Ht; subst.
    destruct (Hret _ eq_refl) as (<- & <- & _). auto.
Qed.

(** X5.  When a response ends normally with an empty body the call
    fails and no file is left at the destination. *)
Theorem empty_body_leaves_no_file
    (download_dir : string) (max_file_size_mb : Z) (format_mb : Z -> string)
    (server : nat -> reply) (now : Z) (url0 : string)
    (filename0 : option string) (fs fs' : gmap string (list Byte.byte))
    (res : download_result) (ev : list event) (k : nat) (r : response) :
  download_file download_dir max_file_size_mb format_mb server now
    url0 filename0 fs = (res, fs', ev) ->
  In (EvRequest k) ev ->
  server k = Responds r ->
  ending r = Complete ->
  concat (chunks r) = [] ->
  success res = false
  /\ fs' !! os_path_join download_dir (resolve_filename now url0 filename0)
     = None.
Proof.
  unfold download_file. intros H Hin Hk He Hempty.
  destruct (reached _ _ _ _ _ _ _ _ _ _ _ _ H Hin)
    as (Hn & st & fs1 & evs & pre & post & Ht & _ & Hret).
  unfold try_once in Ht. rewrite Hn, Hk in Ht. unfold receive in Ht.
  set (name := resolve_filename now url0 filename0) in *.
  assert (Hstream : forall st0 fs0 ev0,
            stream max_file_size_mb format_mb k url0 name
              (os_path_join download_dir name) r fs = (st0, fs0, ev0) ->
            exists r0, st0 = Return r0 /\ success r0 = false
                       /\ fs0 !! os_path_join download_dir name = None).
  { intros st0 fs0 ev0 Hst. unfold stream in Hst.
    destruct (write_chunks max_file_size_mb format_mb
                (os_path_join download_dir name) url0 (chunks r) 0
                (<[os_path_join download_dir name := []]> fs))
      as [[too_large|] fs2] eqn:Ew.
    - destruct (write_chunks_abort _ _ _ _ _ _ _ _ _ _ Ew) as (Hs & Hnone & _).
      inversion Hst; subst. eauto.
    - destruct (write_chunks_content _ _ _ _ _ _ _ _ _ []
                  (lookup_insert_eq _ _ _) Ew) as (Hcontent & _).
      rewrite He, Hcontent, Hempty in Hst. cbn in Hst.
      inversion Hst; subst. eexists. split; [reflexivity|].
      split; [reflexivity | apply lookup_delete_eq]. }
  destruct (content_length r) as [|n|text].
  - destruct (stream _ _ _ _ _ _ _ _) as [[st0 fs0] ev0] eqn:Est.
    destruct (Hstream _ _ _ eq_refl) as (r0 & -> & Hs & Hnone).
    inversion Ht; subst.
    destruct (Hret _ eq_refl) as (-> & -> & _). auto.
  - destruct (_ <? n).
    + inversion Ht; subst. destruct (Hret _ eq_refl) as (<- & <- & _). auto.
    + destruct (stream _ _ _ _ _ _ _ _) as [[st0 fs0] ev0] eqn:Est.
      destruct (Hstream _ _ _ eq_refl) as (r0 & -> & Hs & Hnone).
      inversion Ht; subst.
      destruct (Hret _ eq_refl) as (-> & -> & _). auto.
  - cbn in Ht. inversion Ht; subst.
    destruct (Hret _ eq_refl) as (<- & <- & _). auto.
Qed.

(** X6.  When a response whose declared size passes the check ends
    normally with a body that is not empty and within the limit, the call
    succeeds and the file at the destination holds exactly the bytes of
    the body, in order. *)
Theorem completed_download_stores_the_body
    (download_dir : string) (max_file_size_mb : Z) (format_mb : Z -> string)
    (server : nat -> reply) (now : Z) (url0 : string)
    (filename0 : option string) (fs fs' : gmap string (list Byte.byte))
    (res : download_result) (ev : list event) (k : nat) (r : response) :
  download_file download_dir max_file_size_mb format_mb server now
    url0 filename0 fs = (res, fs', ev) ->
  In (EvRequest k) ev ->
  server k = Responds r ->
  ending r = Complete ->
  (content_length r = HAbsent
   \/ exists n, content_length r = HInt n
                /\ n <= max_file_size max_file_size_mb) ->
  0 < Z.of_nat (length (concat (chunks r)))
    <= max_file_size max_file_size_mb ->
  success res = true
  /\ message res = Some "下载完成"
  /\ size res = Some (Z.of_nat (length (concat (chunks r))))
  /\ fs' !! os_path_join download_dir (resolve_filename now url0 filename0)
     = Some (concat (chunks r)).
Proof.
  unfold download_file. intros H Hin Hk He Hcl Hlen.
  destruct (reached _ _ _ _ _ _ _ _ _ _ _ _ H Hin)
    as (Hn & st & fs1 & evs & pre & post & Ht & _ & Hret).
  unfold try_once in Ht. rewrite Hn, Hk in Ht. unfold receive in Ht.
  set (name := resolve_filename now url0 filename0) in *.
  assert (Hst : stream max_file_size_mb format_mb k url0 name
                  (os_path_join download_dir name) r fs
                = (st, fs1, evs)).
  { destruct Hcl as [Hc | (n & Hc & Hle)]; rewrite Hc in Ht.
    - destruct (stream _ _ _ _ _ _ _ _) as [[st0 fs0] ev0].
      inversion Ht; subst. reflexivity.
    - destruct (Z.ltb_spec (max_file_size max_file_size_mb) n); [lia|].
      destruct (stream _ _ _ _ _ _ _ _) as [[st0 fs0] ev0].
      inversion Ht; subst. reflexivity. }
  unfold stream in Hst.
  destruct (write_chunks_within download_dir max_file_size_mb format_mb
              url0 name (chunks r) 0
              (<[os_path_join download_dir name := []]> fs)) as [fs2 Hw];
    [lia|].
  rewrite Hw, He in Hst.
  destruct (write_chunks_content _ _ _ _ _ _ _ _ _ []
              (lookup_insert_eq _ _ _) Hw) as (Hcontent & _).
  rewrite Hcontent in Hst. cbn [app] in Hst.
  destruct (Z.eqb_spec (Z.of_nat (length (concat (chunks r)))) 0); [lia|].
  inversion Hst; subst.
  destruct (Hret _ eq_refl) as (<- & <- & _).
  repeat split. exact Hcontent.
Qed.

(** X7.  A failure of the request that is not a 403, a 429, a timeout or
    a connection error (a 404, a 500, any other exception) is never
    retried: the call fails at once, the failed request is its last
    action and the files are unchanged. *)
Theorem other_failures_are_final
    (download_dir : string) (max_file_size_mb : Z) (format_mb : Z -> string)
    (server : nat -> reply) (now : Z) (url0 : string)
    (filename0 : option string) (fs fs' : gmap string (list Byte.byte))
    (res : download_result) (ev : list event) (k : nat) (e : exn) :
  download_file download_dir max_file_size_mb format_mb server now
    url0 filename0 fs = (res, fs', ev) ->
  In (EvRequest k) ev ->
  server k = Raises e ->
  delay_for e = None ->
  success res = false /\ fs' = fs
  /\ exists pre, ev = (pre ++ [EvRequest k])%list.
Proof.
  unfold download_file. intros H Hin Hk Hd.
  destruct (reached _ _ _ _ _ _ _ _ _ _ _ _ H Hin)
    as (Hn & st & fs1 & evs & pre & post & Ht & Hev & Hret).
  unfold try_once in Ht. rewrite Hn, Hk in Ht.
  destruct (handle k url0 e) as [st0 ev0] eqn:Eh.
  inversion Ht; subst.
  destruct (handle_cases _ _ _ _ _ Eh)
    as [(r0 & -> & Hs & -> & _) | (_ & _ & d & Hd' & _)]; [|congruence].
  destruct (Hret _ eq_refl) as (<- & <- & ->).
  split; [exact Hs|]. split; [reflexivity|]. exists pre. reflexivity.
Qed.

(** X8.  Every sleep of a call directly follows a request that failed,
    at the connection or while the body was read, with a 403, a 429, a
    timeout or a connection error; it lasts 4 seconds after a 429 and 2
    seconds otherwise. *)
Theorem sleeps_follow_retried_failures
    (download_dir : string) (max_file_size_mb : Z) (format_mb : Z -> string)
    (server : nat -> reply) (now : Z) (url0 : string)
    (filename0 : option string) (fs fs' : gmap string (list Byte.byte))
    (res : download_result) (ev pre post : list event) (d : Z) :
  download_file download_dir max_file_size_mb format_mb server now
    url0 filename0 fs = (res, fs', ev) ->
  ev = (pre ++ EvSleep d :: post)%list ->
  exists pre' k e,
    pre = (pre' ++ [EvRequest k])%list
    /\ cause_of (server k) = Some e
    /\ delay_for e = Some d
    /\ (d = 4 /\ (exists text, e = HTTPError 429 text)
        \/ d = 2 /\ ((exists text, e = HTTPError 403 text)
                     \/ (exists text, e = Timeout text)
                     \/ (exists text, e = ConnectionError text))).
Proof.
  unfold download_file. intros H Hev.
  destruct (attempts_sleep_cause _ _ _ _ _ _ _ _ _ _ _ _ _ _ H Hev)
    as (pre' & k & e & Hp & Hc & Hd).
  exists pre', k, e. repeat (split; [assumption|]).
  destruct e as [code text|text|text|text]; cbn in Hd.
  - destruct (Z.eqb_spec code 403); [subst; inversion Hd; eauto 6|].
    destruct (Z.eqb_spec code 404); [discriminate|].
    destruct (Z.eqb_spec code 429); [subst; inversion Hd; eauto 6|].
    discriminate.
  - inversion Hd. eauto 8.
  - inversion Hd. eauto 8.
  - discriminate.
Qed.


(** Remote ends for the examples: three bytes in three chunks, one of
    them empty; a single byte; an empty body; a missing file. *)
Definition serves_abc (attempt : nat) : reply :=
  Responds {| content_length := HInt 3;
              chunks := [[Byte.x61; Byte.x62]; []; [Byte.x63]];
              ending := Complete |}.

Definition serves_one_byte (attempt : nat) : reply :=
  Responds {| content_length := HAbsent; chunks := [[Byte.x61]];
              ending := Complete |}.

Definition serves_nothing (attempt : nat) : reply :=
  Responds {| content_length := HAbsent; chunks := [[]];
              ending := Complete |}.

Definition not_found (attempt : nat) : reply :=
  Raises (HTTPError 404 "404 Client Error: Not Found").

Definition example_url : string := "https://cdn.example.com/a.mp4".

Abbreviation example_run server mb fs :=
  (download_file "./downloads" mb DirectDownloaderFacts.show_mb server
     1700000000 example_url None fs).

Ltac evaluate E := vm_compute in E; inversion E; subst.

Lemma success_has_its_file_witness :
  let '(res, fs', ev) := example_run serves_abc 1 ∅ in
  exists content,
    fs' !! "./downloads/a.mp4" = Some content
    /\ size res = Some (Z.of_nat (length content)).
Proof.
  destruct (example_run serves_abc 1 ∅) as [[res fs'] ev] eqn:E.
  destruct (success_has_its_file _ _ _ _ _ _ _ _ _ _ _ E)
    as (content & Hc & _ & _ & Hs).
  - evaluate E. reflexivity.
  - exists content. split; [exact Hc | exact Hs].
Defined.

Lemma only_destination_is_touched_witness :
  let '(res, fs', ev) :=
    example_run DirectDownloaderFacts.stalls_on_last_attempt 1
      (<["./downloads/other.bin" := [Byte.x00]]> ∅) in
  fs' !! "./downloads/other.bin" = Some [Byte.x00].
Proof.
  destruct (example_run DirectDownloaderFacts.stalls_on_last_attempt 1
              (<["./downloads/other.bin" := [Byte.x00]]> ∅))
    as [[res fs'] ev] eqn:E.
  rewrite (only_destination_is_touched _ _ _ _ _ _ _ _ _ _ _
             "./downloads/other.bin" E).
  - reflexivity.
  - vm_compute. discriminate.
Defined.

Lemma effort_is_bounded_witness :
  let '(res, fs', ev) := example_run DirectDownloaderFacts.always_429 1 ∅ in
  (length (requests_of ev) <= 3)%nat /\ 0 <= sleep_total ev <= 8.
Proof.
  destruct (example_run DirectDownloaderFacts.always_429 1 ∅)
    as [[res fs'] ev] eqn:E.
  exact (proj2 (effort_is_bounded _ _ _ _ _ _ _ _ _ _ _ E)).
Defined.

Lemma body_over_limit_leaves_no_file_witness :
  let '(res, fs', ev) := example_run serves_one_byte 0 ∅ in
  success res = false /\ fs' !! "./downloads/a.mp4" = None.
Proof.
  destruct (example_run serves_one_byte 0 ∅) as [[res fs'] ev] eqn:E.
  refine (body_over_limit_leaves_no_file _ _ _ _ _ _ _ _ _ _ _ 0%nat _
            _ E _ eq_refl _).
  - lia.
  - evaluate E. left. reflexivity.
  - vm_compute. reflexivity.
Defined.

Lemma empty_body_leaves_no_file_witness :
  let '(res, fs', ev) := example_run serves_nothing 1 ∅ in
  success res = false /\ fs' !! "./downloads/a.mp4" = None.
Proof.
  destruct (example_run serves_nothing 1 ∅) as [[res fs'] ev] eqn:E.
  refine (empty_body_leaves_no_file _ _ _ _ _ _ _ _ _ _ _ 0%nat _
            E _ eq_refl eq_refl eq_refl).
  evaluate E. left. reflexivity.
Defined.

Lemma completed_download_stores_the_body_witness :
  let '(res, fs', ev) := example_run serves_abc 1 ∅ in
  success res = true
  /\ fs' !! "./downloads/a.mp4" = Some [Byte.x61; Byte.x62; Byte.x63].
Proof.
  destruct (example_run serves_abc 1 ∅) as [[res fs'] ev] eqn:E.
  assert (Hin : In (EvRequest 0) ev) by (evaluate E; left; reflexivity).
  destruct (completed_download_stores_the_body _ _ _ _ _ _ _ _ _ _ _
              0%nat _ E Hin eq_refl eq_refl)
    as (Hs & _ & _ & Hc).
  - right. exists 3. split; [reflexivity | vm_compute; discriminate].
  - vm_compute. split; [reflexivity | discriminate].
  - split; [exact Hs | exact Hc].
Defined.

Lemma other_failures_are_final_witness :
  let '(res, fs', ev) := example_run not_found 1 ∅ in
  success res = false /\ fs' = ∅ /\ exists pre, ev = (pre ++ [EvRequest 0])%list.
Proof.
  destruct (example_run not_found 1 ∅) as [[res fs'] ev] eqn:E.
  refine (other_failures_are_final _ _ _ _ _ _ _ _ _ _ _ 0%nat _
            E _ eq_refl eq_refl).
  evaluate E. left. reflexivity.
Defined.

Lemma sleeps_follow_retried_failures_witness :
  exists pre' k e,
    [EvRequest 0] = (pre' ++ [EvRequest k])%list
    /\ cause_of (DirectDownloaderFacts.always_429 k) = Some e
    /\ delay_for e = Some 4.
Proof.
  destruct (example_run DirectDownloaderFacts.always_429 1 ∅)
    as [[res fs'] ev] eqn:E.
  destruct (sleeps_follow_retried_failures _ _ _ _ _ _ _ _ _ _ _
              [EvRequest 0] [EvRequest 1; EvSleep 4; EvRequest 2] 4 E)
    as (pre' & k & e & H1 & H2 & H3 & _).
  - evaluate E. reflexivity.
  - exists pre', k, e. auto.
Defined.


End DirectDownloaderRuns.

(** ** Direct downloader: file names and request headers *)

Module DownloadNames.
Import DirectDownloader.








End DownloadNames.

(** ** Direct downloader: the headers of each attempt *)

Module DownloadHeaders.

(** [needle in hay] on byte strings. *)
Fixpoint str_contains (needle hay : string) : bool :=
  String.prefix needle hay ||
  match hay with
  | EmptyString => false
  | String _ hay' => str_contains needle hay'
  end.

Abbreviation headers := (gmap string string).

(** [headers.update({...})] *)
Definition update (new : list (string * string)) (h : headers) : headers :=
  list_to_map new ∪ h.

Definition default_user_agent : string :=
  "Mozilla/5.0 (Windows NT 10.0; Win64; x64) AppleWebKit/537.36 (KHTML, like Gecko) Chrome/91.0.4472.124 Safari/537.36".
Definition mac_user_agent : string :=
  "Mozilla/5.0 (Macintosh; Intel Mac OS X 10_15_7) AppleWebKit/537.36 (KHTML, like Gecko) Chrome/91.0.4472.124 Safari/537.36".
Definition mobile_user_agent : string :=
  "Mozilla/5.0 (iPhone; CPU iPhone OS 14_6 like Mac OS X) AppleWebKit/605.1.15 (KHTML, like Gecko) Version/14.0.3 Mobile/15E148 Safari/604.1".

Definition _get_download_headers (url0 : string) : headers :=
  let h : headers :=
    list_to_map
      [ ("User-Agent", default_user_agent);
        ("Accept", "*/*");
        ("Accept-Language", "zh-CN,zh;q=0.9,en;q=0.8");
        ("Accept-Encoding", "gzip, deflate, br");
        ("Connection", "keep-alive");
        ("Upgrade-Insecure-Requests", "1") ] in
  if str_contains "bilivideo.com" url0 then
    update [ ("Referer", "https://www.bilibili.com/");
             ("Origin", "https://www.bilibili.com");
             ("Sec-Fetch-Dest", "video");
             ("Sec-Fetch-Mode", "cors");
             ("Sec-Fetch-Site", "cross-site") ] h
  else if existsb (fun cdn => str_contains cdn url0)
            [".cdn.com"; ".media.com"; ".video.com"; ".stream.com"] then
    update [ ("Referer", "https://www.google.com/");
             ("Sec-Fetch-Dest", "video");
             ("Sec-Fetch-Mode", "cors");
             ("Sec-Fetch-Site", "cross-site") ] h
  else h.

Definition _get_retry_headers (url0 : string) (attempt : nat) : headers :=
  let h := _get_download_headers url0 in
  let h :=
    if Nat.eqb attempt 1 then <["User-Agent" := mac_user_agent]> h
    else if Nat.eqb attempt 2 then <["User-Agent" := mobile_user_agent]> h
    else h in
  if str_contains "bilivideo.com" url0 then
    if Nat.eqb attempt 1
    then <["Referer" := "https://www.bilibili.com/video/"]> h
    else if Nat.eqb attempt 2
    then delete "Origin" (<["Referer" := "https://www.bilibili.com/"]> h)
    else h
  else h.

(** The headers [download_file] sends in attempt [attempt]. *)
Definition request_headers (url0 : string) (attempt : nat) : headers :=
  if (0 <? attempt)%nat then _get_retry_headers url0 attempt
  else _get_download_headers url0.

End DownloadHeaders.

Module DownloadHeadersFacts.
Import DownloadHeaders.

Ltac by_host url0 :=
  unfold request_headers, _get_retry_headers, _get_download_headers;
  destruct (str_contains "bilivideo.com" url0);
  [| destruct (existsb (fun cdn => str_contains cdn url0)
                 [".cdn.com"; ".media.com"; ".video.com"; ".stream.com"])].

(** X11.  For every URL the three attempts of a call send three
    different User-Agent values, and the other five default headers are
    sent unchanged in every attempt. *)
Theorem user_agent_rotates (url0 : string) :
  request_headers url0 0 !! "User-Agent" = Some default_user_agent
  /\ request_headers url0 1 !! "User-Agent" = Some mac_user_agent
  /\ request_headers url0 2 !! "User-Agent" = Some mobile_user_agent
  /\ default_user_agent <> mac_user_agent
  /\ default_user_agent <> mobile_user_agent
  /\ mac_user_agent <> mobile_user_agent
  /\ forall attempt k,
       In k ["Accept"; "Accept-Language"; "Accept-Encoding"; "Connection";
             "Upgrade-Insecure-Requests"] ->
       request_headers url0 attempt !! k = request_headers url0 0 !! k
       /\ request_headers url0 0 !! k <> None.
Proof.
  split; [by_host url0; vm_compute; reflexivity|].
  split; [by_host url0; vm_compute; reflexivity|].
  split; [by_host url0; vm_compute; reflexivity|].
  split; [vm_compute; discriminate|].
  split; [vm_compute; discriminate|].
  split; [vm_compute; discriminate|].
  intros attempt k Hk.
  simpl in Hk.
  repeat (destruct Hk as [<- | Hk]; [|try contradiction]);
    destruct attempt as [|[|[|attempt]]];
    by_host url0; vm_compute; (split; [reflexivity | discriminate]).
Qed.

(** X12.  For a URL on the bilivideo CDN every attempt sends a bilibili
    Referer, and the Origin header is sent in the first two attempts and
    dropped in the third.  For a URL that names neither that CDN nor one
    of the four generic CDN suffixes no attempt sends a Referer or an
    Origin. *)
Theorem referer_and_origin_by_host (url0 : string) :
  (str_contains "bilivideo.com" url0 = true ->
     request_headers url0 0 !! "Referer" = Some "https://www.bilibili.com/"
     /\ request_headers url0 1 !! "Referer"
        = Some "https://www.bilibili.com/video/"
     /\ request_headers url0 2 !! "Referer" = Some "https://www.bilibili.com/"
     /\ request_headers url0 0 !! "Origin" = Some "https://www.bilibili.com"
     /\ request_headers url0 1 !! "Origin" = Some "https://www.bilibili.com"
     /\ request_headers url0 2 !! "Origin" = None)
  /\ (str_contains "bilivideo.com" url0 = false ->
      existsb (fun cdn => str_contains cdn url0)
        [".cdn.com"; ".media.com"; ".video.com"; ".stream.com"] = false ->
      forall attempt,
        request_headers url0 attempt !! "Referer" = None
        /\ request_headers url0 attempt !! "Origin" = None).
Proof.
  split.
  - intros Hb.
    unfold request_headers, _get_retry_headers, _get_download_headers.
    rewrite Hb. vm_compute. repeat split; reflexivity.
  - intros Hb Hc attempt.
    unfold request_headers, _get_retry_headers, _get_download_headers.
    rewrite Hb, Hc.
    destruct attempt as [|[|[|attempt]]]; vm_compute; split; reflexivity.
Qed.

Lemma referer_and_origin_by_host_witness :
  request_headers "https://upos-sz.bilivideo.com/v/1.mp4" 2 !! "Origin" = None
  /\ request_headers "https://example.org/v/1.mp4" 1 !! "Referer" = None.
Proof.
  split.
  - apply (proj1 (referer_and_origin_by_host
                    "https://upos-sz.bilivideo.com/v/1.mp4")).
    vm_compute. reflexivity.
  - apply (proj2 (referer_and_origin_by_host "https://example.org/v/1.mp4"));
      vm_compute; reflexivity.
Defined.

End DownloadHeadersFacts.
